(** * The snake game's simulation core (CppND capstone): model and properties

    A shallow embedding of [food.cpp]/[food.h], [snake.cpp]/[snake.h] and
    [game.cpp]/[game.h], and of the result report of [main.cpp].  (In the
    source tree [snake.h] and [game.h] follow [snake.cpp] in one file, and
    [game.cpp] and [main.cpp] follow [renderer.h].)

    Conventions.
    - A C++ [int] is a [Z].  The two counters that the properties follow over
      unboundedly many steps, [Snake::size] and [Food::counter], carry the
      signed-overflow check explicitly (overflow is undefined behaviour);
      grid coordinates and scores stay far from the bounds of [int].
    - A C++ [float] is an IEEE binary32 value and a [double] a binary64 value,
      both as [spec_float] with the operations of [SpecFloat].
    - A member function that can run into undefined behaviour returns a
      [result]; so does one that draws random numbers, since the finite tape
      of draws of the model can run out.
    - The mutexes are not modelled: the simulation thread is the only writer. *)

From Stdlib Require Import ZArith List Bool Lia.
From Stdlib Require Import Floats.SpecFloat.
From stdpp Require Import base list.
From Stdlib Require String DecimalString.

Local Open Scope Z_scope.

(** ** Results of partial operations *)

Inductive result (A : Type) : Type :=
| Ok (a : A)        (* the call returns *)
| Undefined         (* the call has undefined behaviour in C++ *)
| Starved.          (* the tape of random draws ended before the call did *)

Arguments Ok {A} a.
Arguments Undefined {A}.
Arguments Starved {A}.

Definition bind {A B : Type} (m : result A) (k : A -> result B) : result B :=
  match m with
  | Ok a => k a
  | Undefined => Undefined
  | Starved => Starved
  end.

Notation "'do' x <- m ; k" := (bind m (fun x => k))
  (at level 10, x name, m at level 100, k at level 200,
   format "'[v' 'do'  x  <-  m ; '/' k ']'").

Definition INT_MAX : Z := 2147483647.
Definition INT_MIN : Z := -2147483648.

(** ** Floating point: [float] and [double] *)

Module Fp.

Definition float := spec_float.
Definition double := spec_float.

(** Rounding of a value to the nearest binary32 / binary64 number. *)
Definition round32 (v : spec_float) : float :=
  match v with
  | S754_finite s m e => binary_normalize 24 128 (cond_Zopp s (Z.pos m)) e s
  | _ => v
  end.

Definition round64 (v : spec_float) : double :=
  match v with
  | S754_finite s m e => binary_normalize 53 1024 (cond_Zopp s (Z.pos m)) e s
  | _ => v
  end.

(** [static_cast<float>(n)] and [static_cast<double>(n)] of an [int]. *)
Definition float_of_int (n : Z) : float := binary_normalize 24 128 n 0 false.
Definition double_of_int (n : Z) : double := binary_normalize 53 1024 n 0 false.

(** The implicit conversions between the two formats. *)
Definition double_of_float (v : float) : double := round64 v.
Definition float_of_double (v : double) : float := round32 v.

(** A decimal literal [n/d]: the nearest double ([0.005]), and the nearest
    float for a literal with the [f] suffix ([0.15f]). *)
Definition double_lit (n d : Z) : double :=
  SFdiv 53 1024 (double_of_int n) (double_of_int d).
Definition float_lit (n d : Z) : float :=
  SFdiv 24 128 (float_of_int n) (float_of_int d).

Definition fadd : float -> float -> float := SFadd 24 128.
Definition fsub : float -> float -> float := SFsub 24 128.
Definition flt : float -> float -> bool := SFltb.
Definition dadd : double -> double -> double := SFadd 53 1024.

(** [fmod(a, b)] of [<cmath>] on doubles: [a - n*b] for the quotient [n]
    truncated towards zero; the result is exact and has the sign of [a]. *)
Definition fmod (a b : double) : double :=
  match a, b with
  | S754_nan, _ | _, S754_nan => S754_nan
  | S754_infinity _, _ => S754_nan
  | _, S754_zero _ => S754_nan
  | S754_zero _, _ => a
  | _, S754_infinity _ => a
  | S754_finite sa ma ea, S754_finite _ mb eb =>
      let e := Z.min ea eb in
      let na := Z.shiftl (Z.pos ma) (ea - e) in
      let nb := Z.shiftl (Z.pos mb) (eb - e) in
      binary_normalize 53 1024 (cond_Zopp sa (na mod nb)) e sa
  end.

(** [static_cast<int>(v)]: truncation towards zero.  The conversion of a
    NaN, an infinity or a value outside [int] is undefined in C++; the model
    gives what the x86-64 conversion instruction gives there, [INT_MIN]. *)
Definition int_of_float (v : float) : Z :=
  match v with
  | S754_zero _ => 0
  | S754_finite s m e =>
      let n := cond_Zopp s (Z.shiftl (Z.pos m) e) in
      if (INT_MIN <=? n) && (n <=? INT_MAX) then n else INT_MIN
  | _ => INT_MIN
  end.

End Fp.

(** ** SDL_Point *)

Record SDL_Point : Type := mkPoint { pt_x : Z; pt_y : Z }.

Definition same_cell (x y : Z) (p : SDL_Point) : bool :=
  (x =? pt_x p) && (y =? pt_y p).

(** ** food.h, food.cpp: Food *)

Module Food.

(** [enum class Type { kNormal, kBoost, kCut }] *)
Inductive Type_ : Type := kNormal | kBoost | kCut.

Record t : Type := mk {
  type : Type_;
  pos : SDL_Point;
  counter : Z
}.

(** [const int MAX_COUNT = 5 * 60; // 5 seconds] *)
Definition MAX_COUNT : Z := 5 * 60.

Definition ResetCounter (f : t) : t :=
  {| type := type f; pos := pos f; counter := MAX_COUNT |}.

(** [Food::Food()] *)
Definition new : t :=
  ResetCounter {| type := kNormal; pos := mkPoint (-1) (-1); counter := MAX_COUNT |}.

(** [Food::Count()]: [counter--; if (counter <= 0) type = kNormal;] *)
Definition Count (f : t) : result t :=
  if counter f =? INT_MIN then Undefined
  else
    let c := counter f - 1 in
    Ok {| type := if c <=? 0 then kNormal else type f;
          pos := pos f;
          counter := c |}.

(** [Food::Update(x, y, t)] *)
Definition Update (x y : Z) (ty : Type_) (f : t) : t :=
  ResetCounter {| type := ty; pos := mkPoint x y; counter := counter f |}.

(** [n] calls of [Count] in a row, nothing in between. *)
Fixpoint Count_times (n : nat) (f : t) : result t :=
  match n with
  | O => Ok f
  | S k => do f' <- Count f; Count_times k f'
  end.

End Food.

(** ** food.h, food.cpp: FoodManager *)

Module FoodManager.

(** The manager's [std::vector<Food> foods]. *)
Abbreviation t := (list Food.t) (only parsing).

(** [int target_food_number{2};] *)
Definition target_food_number : Z := 2.

(** [FoodManager::FoodManager()]: two default foods are pushed. *)
Definition new : t := [] ++ [Food.new] ++ [Food.new].

(** [foods[n]] for an [int n]; outside the vector it is undefined. *)
Definition at_ (foods : t) (n : Z) : result Food.t :=
  if n <? 0 then Undefined
  else match foods !! Z.to_nat n with
       | Some f => Ok f
       | None => Undefined
       end.

(** [FoodManager::UpdateFood(n, x, y, type)]: [foods[n].Update(x, y, type)] *)
Definition UpdateFood (n x y : Z) (ty : Food.Type_) (foods : t) : result t :=
  do f <- at_ foods n;
  Ok (<[Z.to_nat n := Food.Update x y ty f]> foods).

(** [FoodManager::CheckFood(x, y)]: the first index whose food is on the
    cell, [-1] when there is none. *)
Fixpoint CheckFood_from (i : Z) (x y : Z) (foods : t) : Z :=
  match foods with
  | [] => -1
  | food :: rest =>
      if same_cell x y (Food.pos food) then i
      else CheckFood_from (i + 1) x y rest
  end.

Definition CheckFood (x y : Z) (foods : t) : Z := CheckFood_from 0 x y foods.

(** [FoodManager::GetType(n)] *)
Definition GetType (n : Z) (foods : t) : result Food.Type_ :=
  do f <- at_ foods n; Ok (Food.type f).

(** [FoodManager::GetFoods()]: a copy of the vector. *)
Definition GetFoods (foods : t) : list Food.t := foods.

Definition GetSize (foods : t) : Z := Z.of_nat (length foods).

(** [FoodManager::Count()]: [Count] on every food, in order. *)
Fixpoint Count (foods : t) : result t :=
  match foods with
  | [] => Ok []
  | food :: rest =>
      do food' <- Food.Count food;
      do rest' <- Count rest;
      Ok (food' :: rest')
  end.

End FoodManager.

(** ** snake.h, snake.cpp: Snake *)

Module Snake.

Import Fp.

(** [enum class Direction { kUp, kDown, kLeft, kRight }] *)
Inductive Direction : Type := kUp | kDown | kLeft | kRight.

Definition Direction_eqb (a b : Direction) : bool :=
  match a, b with
  | kUp, kUp | kDown, kDown | kLeft, kLeft | kRight, kRight => true
  | _, _ => false
  end.

Record t : Type := mk {
  direction : Direction;
  speed : float;
  size : Z;
  alive : bool;
  head_x : float;
  head_y : float;
  body : list SDL_Point;
  growing : bool;
  cutting : bool;
  grid_width : Z;
  grid_height : Z
}.

(** [const float MAX_SPEED{0.3};]: the double [0.3], narrowed to float. *)
Definition MAX_SPEED : float := float_of_double (double_lit 3 10).

(** Assignments to single members. *)
Definition set_direction (d : Direction) (s : t) : t :=
  mk d (speed s) (size s) (alive s) (head_x s) (head_y s) (body s)
     (growing s) (cutting s) (grid_width s) (grid_height s).
Definition set_speed (v : float) (s : t) : t :=
  mk (direction s) v (size s) (alive s) (head_x s) (head_y s) (body s)
     (growing s) (cutting s) (grid_width s) (grid_height s).
Definition set_size (n : Z) (s : t) : t :=
  mk (direction s) (speed s) n (alive s) (head_x s) (head_y s) (body s)
     (growing s) (cutting s) (grid_width s) (grid_height s).
Definition set_alive (b : bool) (s : t) : t :=
  mk (direction s) (speed s) (size s) b (head_x s) (head_y s) (body s)
     (growing s) (cutting s) (grid_width s) (grid_height s).
Definition set_head_x (v : float) (s : t) : t :=
  mk (direction s) (speed s) (size s) (alive s) v (head_y s) (body s)
     (growing s) (cutting s) (grid_width s) (grid_height s).
Definition set_head_y (v : float) (s : t) : t :=
  mk (direction s) (speed s) (size s) (alive s) (head_x s) v (body s)
     (growing s) (cutting s) (grid_width s) (grid_height s).
Definition set_body (b : list SDL_Point) (s : t) : t :=
  mk (direction s) (speed s) (size s) (alive s) (head_x s) (head_y s) b
     (growing s) (cutting s) (grid_width s) (grid_height s).
Definition set_growing (b : bool) (s : t) : t :=
  mk (direction s) (speed s) (size s) (alive s) (head_x s) (head_y s) (body s)
     b (cutting s) (grid_width s) (grid_height s).
Definition set_cutting (b : bool) (s : t) : t :=
  mk (direction s) (speed s) (size s) (alive s) (head_x s) (head_y s) (body s)
     (growing s) b (grid_width s) (grid_height s).

(** [size++]: undefined at [INT_MAX]. *)
Definition incr_size (s : t) : result t :=
  if size s =? INT_MAX then Undefined else Ok (set_size (size s + 1) s).

(** [Snake::PushBack(cell)]: [body.push_back(cell); size++;] *)
Definition PushBack (cell : SDL_Point) (s : t) : result t :=
  incr_size (set_body (body s ++ [cell]) s).

(** [Snake::Snake(grid_width, grid_height, init_x, init_y, speed)], on top
    of the default member initializers of [snake.h] ([size{1}], [alive{true}],
    [direction = kUp], both flags false, empty body). *)
Definition new (grid_width grid_height init_x init_y : Z) (speed : float) : result t :=
  let s := {| direction := kUp; speed := speed; size := 1; alive := true;
              head_x := float_of_int init_x; head_y := float_of_int init_y;
              body := []; growing := false; cutting := false;
              grid_width := grid_width; grid_height := grid_height |} in
  let p := mkPoint (int_of_float (head_x s))
                   (int_of_float (fadd (head_y s) (float_of_int 1))) in
  do s <- PushBack p s;
  let p := mkPoint (pt_x p) (pt_y p + 1) in
  PushBack p s.

(** [Snake::UpdateHead()] *)
Definition UpdateHead (s : t) : t :=
  let s :=
    match direction s with
    | kUp => set_head_y (fsub (head_y s) (speed s)) s
    | kDown => set_head_y (fadd (head_y s) (speed s)) s
    | kLeft => set_head_x (fsub (head_x s) (speed s)) s
    | kRight => set_head_x (fadd (head_x s) (speed s)) s
    end in
  (* Wrap the Snake around to the beginning if going off of the screen. *)
  let s := set_head_x
             (float_of_double
                (fmod (double_of_float (fadd (head_x s) (float_of_int (grid_width s))))
                      (double_of_int (grid_width s)))) s in
  set_head_y
    (float_of_double
       (fmod (double_of_float (fadd (head_y s) (float_of_int (grid_height s))))
             (double_of_int (grid_height s)))) s.

(** [body.erase(body.begin(), body.begin() + cut)]: undefined unless the
    range lies inside the vector. *)
Definition erase_front (cut : Z) (b : list SDL_Point) : result (list SDL_Point) :=
  if (0 <=? cut) && (cut <=? Z.of_nat (length b))
  then Ok (drop (Z.to_nat cut) b)
  else Undefined.

(** [Snake::UpdateBody(current_head_cell, prev_head_cell)] *)
Definition UpdateBody (current_head_cell prev_head_cell : SDL_Point) (s : t) : result t :=
  (* Add previous head location to vector *)
  let s := set_body (body s ++ [prev_head_cell]) s in
  do s <-
    (if negb (growing s) then
       (* Remove the tail from the vector. *)
       do b <- erase_front 1 (body s); Ok (set_body b s)
     else
       incr_size (set_growing false s));
  do s <-
    (if cutting s then
       let cut := Z.min 3 (size s) in
       do b <- erase_front cut (body s);
       Ok (set_cutting false (set_size (size s - cut) (set_body b s)))
     else Ok s);
  (* Check if the snake has died. *)
  Ok (if existsb (same_cell (pt_x current_head_cell) (pt_y current_head_cell)) (body s)
      then set_alive false s else s).

(** The cell of the head: [static_cast<int>] of both coordinates. *)
Definition head_cell (s : t) : SDL_Point :=
  mkPoint (int_of_float (head_x s)) (int_of_float (head_y s)).

Definition cell_neqb (a b : SDL_Point) : bool :=
  negb (pt_x a =? pt_x b) || negb (pt_y a =? pt_y b).

(** [Snake::Update()] *)
Definition Update (s : t) : result t :=
  let prev_cell := head_cell s in
  let s := UpdateHead s in
  let current_cell := head_cell s in
  if cell_neqb current_cell prev_cell
  then UpdateBody current_cell prev_cell s
  else Ok s.

(** Whether this call of [Update] takes the head into another cell, the
    condition of the [if] above. *)
Definition enters_new_cell (s : t) : bool :=
  cell_neqb (head_cell (UpdateHead s)) (head_cell s).

Definition GrowBody (s : t) : t := set_growing true s.
Definition CutBody (s : t) : t := set_cutting true s.

(** [Snake::SnakeCell(x, y)] *)
Definition SnakeCell (x y : Z) (s : t) : bool :=
  if same_cell x y (head_cell s) then true
  else existsb (same_cell x y) (body s).

(** [Snake::NextDirection(dir)].  The [switch] has no [break]: control
    enters at the label equal to [dir] and runs every assignment below it. *)
Definition NextDirection_cases : list (Direction * Direction) :=
  [ (kUp, kRight); (kRight, kDown); (kDown, kLeft); (kLeft, kRight) ].

Fixpoint switch_fallthrough (cases : list (Direction * Direction)) (dir : Direction)
  : Direction :=
  match cases with
  | [] => dir
  | (label, _) :: rest =>
      if Direction_eqb dir label
      then fold_left (fun _ c => snd c) cases dir
      else switch_fallthrough rest dir
  end.

Definition NextDirection (dir : Direction) : Direction :=
  switch_fallthrough NextDirection_cases dir.

(** [Snake::NextPos(dir, next_x, next_y)] *)
Definition NextPos (dir : Direction) (next_x next_y : Z) : Z * Z :=
  match dir with
  | kUp => (next_x, next_y - 1)
  | kDown => (next_x, next_y + 1)
  | kLeft => (next_x - 1, next_y)
  | kRight => (next_x + 1, next_y)
  end.

(** [abs(food.pos.x - x) + abs(food.pos.y - y)] *)
Definition distance (x y : Z) (food : Food.t) : Z :=
  Z.abs (pt_x (Food.pos food) - x) + Z.abs (pt_y (Food.pos food) - y).

(** The first loop of [Snake::Navigate]: the index of the nearest food.
    [i] is the loop counter, [min_distance] and [index] the two locals. *)
Fixpoint nearest_from (i x y : Z) (foods : list Food.t) (min_distance index : Z) : Z :=
  match foods with
  | [] => index
  | food :: rest =>
      if distance x y food <? min_distance
      then nearest_from (i + 1) x y rest (distance x y food) i
      else nearest_from (i + 1) x y rest min_distance index
  end.

Definition Navigate_target (s : t) (foods : list Food.t) : Z :=
  nearest_from 0 (pt_x (head_cell s)) (pt_y (head_cell s)) foods
               (grid_width s + grid_height s) 0.

(** The heading towards the chosen food. *)
Definition Navigate_heading (direction : Direction) (x y : Z) (food : Food.t) : Direction :=
  let fx := pt_x (Food.pos food) in
  let fy := pt_y (Food.pos food) in
  let going := Direction_eqb direction in
  (* if food is behind (two steps needed) *)
  if (going kUp && (fy >? y)) || (going kDown && (fy <? y)) then
    if fx <? x then kLeft else kRight
  else if (going kLeft && (fx >? x)) || (going kRight && (fx <? x)) then
    if fy <? y then kUp else kDown
  else if (fx =? x) && (going kLeft || going kRight) then
    if fy >? y then kDown else kUp
  else if (fy =? y) && (going kDown || going kUp) then
    if fx >? x then kRight else kLeft
  else direction.

(** The last loop of [Snake::Navigate] ("Avoid collision"), with [probes]
    iterations left. *)
Fixpoint Navigate_avoid (probes : nat) (s : t) (x y : Z) (dir : Direction) : Direction :=
  match probes with
  | O => dir
  | S k =>
      let '(next_x, next_y) := NextPos dir x y in
      if negb (SnakeCell next_x next_y s) then dir
      else Navigate_avoid k s x y (NextDirection dir)
  end.

(** [Snake::Navigate(foods)]; [foods[index]] is undefined on an empty
    vector. *)
Definition Navigate (foods : list Food.t) (s : t) : result t :=
  let x := pt_x (head_cell s) in
  let y := pt_y (head_cell s) in
  let index := Navigate_target s foods in
  do food <- FoodManager.at_ foods index;
  let dir := Navigate_heading (direction s) x y food in
  let dir := Navigate_avoid 4 s x y dir in
  Ok (set_direction dir s).

End Snake.

(** ** game.h, game.cpp: Game *)

Module Game.

Import Fp.

(** The random engine is the tape of numbers it will still produce; the
    three distributions map a number into their range. *)
Record t : Type := mk {
  snake : Snake.t;
  enemy : Snake.t;
  food_manager : FoodManager.t;
  engine : list nat;
  grid_width_ : Z;
  grid_height_ : Z;
  scores : list Z
}.

Definition set_snake (s : Snake.t) (g : t) : t :=
  mk s (enemy g) (food_manager g) (engine g) (grid_width_ g) (grid_height_ g) (scores g).
Definition set_enemy (s : Snake.t) (g : t) : t :=
  mk (snake g) s (food_manager g) (engine g) (grid_width_ g) (grid_height_ g) (scores g).
Definition set_food_manager (f : FoodManager.t) (g : t) : t :=
  mk (snake g) (enemy g) f (engine g) (grid_width_ g) (grid_height_ g) (scores g).
Definition set_engine (e : list nat) (g : t) : t :=
  mk (snake g) (enemy g) (food_manager g) e (grid_width_ g) (grid_height_ g) (scores g).
Definition set_scores (sc : list Z) (g : t) : t :=
  mk (snake g) (enemy g) (food_manager g) (engine g) (grid_width_ g) (grid_height_ g) sc.

(** [std::uniform_int_distribution<int>(lo, hi)] applied to the number [r]
    of the engine. *)
Definition uniform (lo hi : Z) (r : nat) : Z := lo + Z.of_nat r mod (hi - lo + 1).

Definition random_w (g : t) : nat -> Z := uniform 0 (grid_width_ g - 1).
Definition random_h (g : t) : nat -> Z := uniform 0 (grid_height_ g - 1).
Definition random_n (g : t) : nat -> Z := uniform 0 99.

(** [Game::PlaceFood(index)]: the [while (true)] loop draws a cell until one
    is free of both snakes; the recursion is on the tape of the engine. *)
Fixpoint PlaceFood_loop (index : Z) (g : t) (tape : list nat) {struct tape} : result t :=
  match tape with
  | rx :: ry :: tape' =>
      let x := random_w g rx in
      let y := random_h g ry in
      (* Check that the location is not occupied by a snake item before
         placing food. *)
      if negb (Snake.SnakeCell x y (snake g)) && negb (Snake.SnakeCell x y (enemy g)) then
        match tape' with
        | rn :: tape'' =>
            let n := random_n g rn in
            let type :=
              if (n >=? 0) && (n <? 15) then Food.kBoost
              else if (n >=? 15) && (n <? 30) then Food.kCut
              else Food.kNormal in
            do fm <- FoodManager.UpdateFood index x y type (food_manager g);
            Ok (set_engine tape'' (set_food_manager fm g))
        | [] => Starved
        end
      else PlaceFood_loop index g tape'
  | _ => Starved
  end.

Definition PlaceFood (index : Z) (g : t) : result t :=
  PlaceFood_loop index g (engine g).

(** [for (size_t i = 0; i < food_manager.target_food_number; i++) PlaceFood(i);]
    with [n] iterations left. *)
Fixpoint PlaceFood_each (n : nat) (i : Z) (g : t) : result t :=
  match n with
  | O => Ok g
  | S k => do g <- PlaceFood i g; PlaceFood_each k (i + 1) g
  end.

(** [Game::Game(screen_width, screen_height, grid_width, grid_height)];
    [seed] is what [engine(dev())] will produce.  The screen size only
    reaches the renderer. *)
Definition new (grid_width grid_height : Z) (seed : list nat) : result t :=
  do snake <- Snake.new grid_width grid_height
                (grid_width / 2 - 5) (grid_height / 2) (float_lit 15 100);
  do enemy <- Snake.new grid_width grid_height
                (grid_width / 2 + 5) (grid_height / 2 + 5) (float_lit 5 100);
  let g := {| snake := snake; enemy := enemy; food_manager := FoodManager.new;
              engine := seed; grid_width_ := grid_width; grid_height_ := grid_height;
              scores := [] ++ [0] ++ [1] |} in
  PlaceFood_each (Z.to_nat FoodManager.target_food_number) 0 g.

(** [speed += c] for a double literal [c]: the sum is formed in double and
    narrowed to float by the assignment. *)
Definition speed_up (c : double) (s : Snake.t) : Snake.t :=
  Snake.set_speed (float_of_double (dadd (double_of_float (Snake.speed s)) c)) s.

(** The three branches on the type of the food eaten, the same for both
    snakes: what happens to the snake, and the points scored. *)
Definition eat (type : Food.Type_) (s : Snake.t) : Snake.t * Z :=
  match type with
  | Food.kNormal =>
      let s := Snake.GrowBody s in
      let s := if flt (Snake.speed s) Snake.MAX_SPEED
               then speed_up (double_lit 5 1000) s else s in
      (s, 1)
  | Food.kBoost =>
      let s := Snake.GrowBody s in
      let s := speed_up (double_lit 5 100) s in
      (s, 3)
  | Food.kCut =>
      let s := Snake.GrowBody s in
      let s := Snake.CutBody s in
      (s, 3)
  end.

(** [*(scores[i]) += d] *)
Definition add_score (i : nat) (d : Z) (g : t) : result t :=
  match scores g !! i with
  | Some v => Ok (set_scores (<[i := v + d]> (scores g)) g)
  | None => Undefined
  end.

(** [Game::Update()] *)
Definition Update (g : t) : result t :=
  if negb (Snake.alive (snake g)) || negb (Snake.alive (enemy g)) then Ok g
  else
    do s <- Snake.Update (snake g);
    let g := set_snake s g in
    do e <- Snake.Update (enemy g);
    let g := set_enemy e g in
    do fm <- FoodManager.Count (food_manager g);
    let g := set_food_manager fm g in
    let new_snake := Snake.head_cell (snake g) in
    let new_enemy := Snake.head_cell (enemy g) in
    (* Check if snake eating a food *)
    let index := FoodManager.CheckFood (pt_x new_snake) (pt_y new_snake) (food_manager g) in
    do g <-
      (if negb (index =? -1) then
         do type <- FoodManager.GetType index (food_manager g);
         let '(s, points) := eat type (snake g) in
         do g <- add_score 0 points (set_snake s g);
         PlaceFood index g
       else Ok g);
    (* Check if enemy eating a food *)
    let index := FoodManager.CheckFood (pt_x new_enemy) (pt_y new_enemy) (food_manager g) in
    if negb (index =? -1) then
      do type <- FoodManager.GetType index (food_manager g);
      let '(e, points) := eat type (enemy g) in
      do g <- add_score 1 points (set_enemy e g);
      PlaceFood index g
    else Ok g.

(** [Game::GetScore()] *)
Definition GetScore (g : t) : result (list Z) :=
  match scores g !! 0%nat, scores g !! 1%nat with
  | Some a, Some b => Ok ([] ++ [a] ++ [b])
  | _, _ => Undefined
  end.

(** Modelled from the spec: [Controller::HandleInput] (controller.cpp is not
    among the sources).  Per tick it "may flip running to false or mutate the
    player's heading; no other contract": the input is the new heading, if
    any. *)
Definition HandleInput (input : option Snake.Direction) (s : Snake.t) : Snake.t :=
  match input with
  | Some d => Snake.set_direction d s
  | None => s
  end.

(** One iteration of the loop of [Game::Run]: input, enemy AI, update. *)
Definition Run_iteration (input : option Snake.Direction) (g : t) : result t :=
  let g := set_snake (HandleInput input (snake g)) g in
  (* Enemy AI *)
  do e <- Snake.Navigate (FoodManager.GetFoods (food_manager g)) (enemy g);
  let g := set_enemy e g in
  Update g.

(** [n] calls of [Game::Update] in a row. *)
Fixpoint Update_times (n : nat) (g : t) : result t :=
  match n with
  | O => Ok g
  | S k => do g' <- Update g; Update_times k g'
  end.

(** The iterations of [Game::Run] for a list of inputs, one per tick. *)
Fixpoint Run (inputs : list (option Snake.Direction)) (g : t) : result t :=
  match inputs with
  | [] => Ok g
  | input :: rest => do g' <- Run_iteration input g; Run rest g'
  end.

End Game.

(** ** main.cpp: the report at the end of the game *)

Inductive Outcome : Type := Won | Draw | Lost.

Definition main_report (score : list Z) : result Outcome :=
  match score with
  | you :: ai :: _ =>
      Ok (if you >? ai then Won else if you =? ai then Draw else Lost)
  | _ => Undefined
  end.

(** ** format.cpp (system monitor): Format::ElapsedTime *)

Module Format.

Import String.

(** The conversion of a [long] to [int]: the value modulo 2^32, taken in
    the signed range. *)
Definition int_of_long (v : Z) : Z := (v + 2 ^ 31) mod 2 ^ 32 - 2 ^ 31.

(** [format << n] for an [int]: the decimal numeral, with a minus sign for
    a negative number and no padding. *)
Definition print_int (n : Z) : String.string :=
  DecimalString.NilZero.string_of_int (Z.to_int n).

(** The four locals of [ElapsedTime]; [/] and [%] truncate towards zero. *)
Definition ElapsedTime_parts (seconds : Z) : Z * Z * Z :=
  let hours := int_of_long (Z.quot seconds 3600) in
  let remainder := int_of_long (Z.rem seconds 3600) in
  let minutes := Z.quot remainder 60 in
  let sSeconds := Z.rem remainder 60 in
  (hours, minutes, sSeconds).

(** [Format::ElapsedTime(seconds)] *)
Definition ElapsedTime (seconds : Z) : String.string :=
  let '(hours, minutes, sSeconds) := ElapsedTime_parts seconds in
  String.append (print_int hours)
    (String.append ":"%string
       (String.append (print_int minutes)
          (String.append ":"%string (print_int sSeconds)))).

End Format.

(** ** Predicates and scenarios of the properties below *)

(** [size] counts the head as well: it is one more than the number of body
    cells. *)
Definition size_counts_head (s : Snake.t) : Prop :=
  Snake.size s = Z.of_nat (length (Snake.body s)) + 1.

(** The erasures of [UpdateBody] stay inside the body vector, and the
    [size++] inside [int], when [s] enters a new cell. *)
Definition UpdateBody_in_bounds (s : Snake.t) : Prop :=
  let grown := if Snake.growing s then 1 else 0 in
  (Snake.growing s = true -> Snake.size s < INT_MAX) /\
  (Snake.cutting s = true ->
   0 <= Z.min 3 (Snake.size s + grown) <= Z.of_nat (length (Snake.body s)) + grown).

(** The foods a program can hold: the counter is private, written by the
    constructor, [Update] and [Count] only. *)
Inductive Food_history : Food.t -> Prop :=
| hist_Food : Food_history Food.new
| hist_Food_Update x y ty f : Food_history f -> Food_history (Food.Update x y ty f)
| hist_Food_Count f f' : Food_history f -> Food.Count f = Ok f' -> Food_history f'.

(** The snakes a program can hold: built by the constructor, then changed
    only through [Update], the two deferred requests, and the writes of the
    public members [direction] (controller, [Navigate]) and [speed]
    ([Game::Update]). *)
Inductive Snake_history : Snake.t -> Prop :=
| hist_new gw gh x y sp s :
    Snake.new gw gh x y sp = Ok s -> Snake_history s
| hist_Update s s' :
    Snake_history s -> Snake.Update s = Ok s' -> Snake_history s'
| hist_GrowBody s : Snake_history s -> Snake_history (Snake.GrowBody s)
| hist_CutBody s : Snake_history s -> Snake_history (Snake.CutBody s)
| hist_direction d s : Snake_history s -> Snake_history (Snake.set_direction d s)
| hist_speed v s : Snake_history s -> Snake_history (Snake.set_speed v s).

(** [g'] is [g] but for the headings of the two snakes. *)
Definition same_but_headings (g g' : Game.t) : Prop :=
  exists d_snake d_enemy,
    g' = Game.set_enemy (Snake.set_direction d_enemy (Game.enemy g))
           (Game.set_snake (Snake.set_direction d_snake (Game.snake g)) g).

(** The heading against [d]. *)
Definition opposite (d : Snake.Direction) : Snake.Direction :=
  match d with
  | Snake.kUp => Snake.kDown
  | Snake.kDown => Snake.kUp
  | Snake.kLeft => Snake.kRight
  | Snake.kRight => Snake.kLeft
  end.

(** The food lies strictly ahead of the cell [(x, y)] along the heading [d]
    (rows count downwards). *)
Definition strictly_ahead (d : Snake.Direction) (x y : Z) (food : Food.t) : Prop :=
  match d with
  | Snake.kUp => pt_y (Food.pos food) < y
  | Snake.kDown => y < pt_y (Food.pos food)
  | Snake.kLeft => pt_x (Food.pos food) < x
  | Snake.kRight => x < pt_x (Food.pos food)
  end.

(** The cell of the food is on the grid of the game and on neither snake. *)
Definition placed_free (g : Game.t) (food : Food.t) : Prop :=
  let x := pt_x (Food.pos food) in
  let y := pt_y (Food.pos food) in
  0 <= x < Game.grid_width_ g /\ 0 <= y < Game.grid_height_ g /\
  Snake.SnakeCell x y (Game.snake g) = false /\
  Snake.SnakeCell x y (Game.enemy g) = false.

(** The shape every game keeps: two scores, food slots as many as at the
    start, and the grid it was built with. *)
Definition same_shape (g g' : Game.t) : Prop :=
  length (Game.scores g') = length (Game.scores g) /\
  length (Game.food_manager g') = length (Game.food_manager g) /\
  Game.grid_width_ g' = Game.grid_width_ g /\
  Game.grid_height_ g' = Game.grid_height_ g.

(** What a tick's food check does to the snake [s] that [Update] returned:
    nothing, for no points, or [eat] for a food of some type. *)
Definition fed (s s' : Snake.t) (points : Z) : Prop :=
  (s' = s /\ points = 0) \/ (exists type, Game.eat type s = (s', points)).

Module Scenario.

(** A food of the given type eaten [n] times in a row by one snake. *)
Fixpoint eat_times (n : nat) (type : Food.Type_) (s : Snake.t) : Snake.t :=
  match n with
  | O => s
  | S k => eat_times k type (fst (Game.eat type s))
  end.

(** The player's snake as [Game::Game] builds it on the grid of [main]:
    [Snake(32, 32, 11, 16, 0.15f)]. *)
Definition player : Snake.t :=
  {| Snake.direction := Snake.kUp; Snake.speed := Fp.float_lit 15 100;
     Snake.size := 3; Snake.alive := true;
     Snake.head_x := Fp.float_of_int 11; Snake.head_y := Fp.float_of_int 16;
     Snake.body := [mkPoint 11 17; mkPoint 11 18];
     Snake.growing := false; Snake.cutting := false;
     Snake.grid_width := 32; Snake.grid_height := 32 |}.

(** The player turned downwards, towards its own body, and a food further
    down the column. *)
Definition player_down : Snake.t := Snake.set_direction Snake.kDown player.
Definition food_below : Food.t := Food.Update 11 20 Food.kNormal Food.new.

(** Two foods at the same distance, 5, from the player's head on (11,16). *)
Definition food_left : Food.t := Food.Update 8 14 Food.kBoost Food.new.
Definition food_right : Food.t := Food.Update 13 13 Food.kCut Food.new.

(** The game of [main]: a grid of 32 by 32 cells. *)
Definition game (seed : list nat) : result Game.t := Game.new 32 32 seed.

(** Numbers of the engine that put a Boost food on (11,15), right in front
    of the player, a Normal food on (0,0), and then a Boost food on each of
    (11,14), (11,13), (11,12) and (11,11) as the one before it is eaten. *)
Definition seed_boosts : list nat :=
  [11; 15; 0;  0; 0; 50;  11; 14; 0;  11; 13; 0;  11; 12; 0;  11; 11; 0]%nat.

(** A Cut food on (11,15) and a Normal food on (0,0); then, in the slot of
    the food eaten, a Normal food on (11,13), a Cut food on (11,11) and a
    Normal food on (5,5). *)
Definition seed_cuts : list nat :=
  [11; 15; 20;  0; 0; 50;  11; 13; 50;  11; 11; 20;  5; 5; 50]%nat.

(** A Normal food on (11,15) and one on (3,19); the first is eaten at once
    and lands on (11,14), is eaten again and lands on (0,0). *)
Definition seed_turn : list nat :=
  [11; 15; 50;  3; 19; 50;  11; 14; 50;  0; 0; 50]%nat.

(** The keys of 21 ticks: none while the player eats the two foods ahead
    and enters (11,13); then left, down, and after five ticks right, back
    into the column of its own body. *)
Definition keys_turn : list (option Snake.Direction) :=
  repeat None 13 ++ [Some Snake.kLeft; Some Snake.kDown]
    ++ repeat None 5 ++ [Some Snake.kRight].

End Scenario.

(** ** Tactics *)

(** Case analysis on every integer comparison of the goal, leaving the
    facts in a form [lia] reads. *)
Ltac zcompare :=
  repeat match goal with
    | |- context [?a <? ?b] => destruct (Z.ltb_spec a b)
    | |- context [?a <=? ?b] => destruct (Z.leb_spec a b)
    | |- context [?a =? ?b] => destruct (Z.eqb_spec a b)
    end.

(** Unfolding of the member assignments of a snake. *)
Ltac members :=
  cbn [Snake.direction Snake.speed Snake.size Snake.alive Snake.head_x
       Snake.head_y Snake.body Snake.growing Snake.cutting
       Snake.grid_width Snake.grid_height
       Snake.set_direction Snake.set_speed Snake.set_size Snake.set_alive
       Snake.set_head_x Snake.set_head_y Snake.set_body Snake.set_growing
       Snake.set_cutting bind negb] in *.

(** * Properties *)

(** ** The literals of the source, as bits *)

(** [0.15f] is 0x3E19999A and [0.05f] is 0x3D4CCCCD; [0.3] narrowed to float
    is 0x3E99999A; [0.05] and [0.005] are 0x3FA999999999999A and
    0x3F747AE147AE147B. *)
Lemma literals :
  Fp.float_lit 15 100 = S754_finite false 0x99999A (-26) /\
  Fp.float_lit 5 100 = S754_finite false 0xCCCCCD (-28) /\
  Snake.MAX_SPEED = S754_finite false 0x99999A (-25) /\
  Fp.double_lit 5 100 = S754_finite false 0x1999999999999A (-57) /\
  Fp.double_lit 5 1000 = S754_finite false 0x147AE147AE147B (-60).
Proof. repeat split; vm_compute; reflexivity. Qed.

(** ** Food: the lifetime counter *)

Section FoodCounter.

Import Food.

Lemma Count_ok (f : Food.t) :
  INT_MIN < counter f ->
  Count f = Ok {| type := if counter f - 1 <=? 0 then kNormal else type f;
                  pos := pos f;
                  counter := counter f - 1 |}.
Proof.
  intros Hlo. unfold Count.
  destruct (Z.eqb_spec (counter f) INT_MIN); [lia | reflexivity].
Qed.

(** What [n] calls of [Count] in a row do to a food, as long as the [int]
    counter does not underflow. *)
Lemma Count_times_ok (n : nat) : forall f : Food.t,
  INT_MIN <= counter f - Z.of_nat n ->
  exists f',
    Count_times n f = Ok f' /\
    counter f' = counter f - Z.of_nat n /\
    pos f' = pos f /\
    type f' = if (0 <? Z.of_nat n) && (counter f - Z.of_nat n <=? 0)
              then kNormal else type f.
Proof.
  induction n as [|n IH]; intros f Hlo.
  - exists f. cbn. repeat split; lia.
  - cbn [Count_times]. rewrite Count_ok by lia. cbn [bind].
    match goal with |- context [Count_times n ?f1] =>
      destruct (IH f1) as (f' & Hrun & Hc & Hp & Ht); [cbn [counter]; lia|]
    end.
    exists f'. cbn [counter pos type] in *.
    split; [exact Hrun|]. split; [lia|]. split; [exact Hp|].
    rewrite Ht.
    replace (counter f - 1 - Z.of_nat n) with (counter f - Z.of_nat (S n)) by lia.
    zcompare; cbn; try reflexivity; lia.
Qed.

End FoodCounter.

(** C2, as the code has it.  For every food and every number [n] of [Count()]
    calls short of an underflow of the [int], the counter afterwards is the
    counter before minus [n]: it is not held at 0 and is negative once [n]
    exceeds the starting value.  The position is unchanged.  As soon as a call
    leaves the counter at 0 or below, the type is [kNormal], and it stays
    [kNormal] through every further [Count()]; before that the type is the
    one the food had.  Only [Update] relocates the food, and it sets the type
    and restarts the counter at [MAX_COUNT]. *)
Theorem Count_times_counter_type (f : Food.t) (n : nat) :
  INT_MIN <= Food.counter f - Z.of_nat n ->
  exists f',
    Food.Count_times n f = Ok f' /\
    Food.counter f' = Food.counter f - Z.of_nat n /\
    Food.pos f' = Food.pos f /\
    Food.type f' = (if (0 <? Z.of_nat n) && (Food.counter f - Z.of_nat n <=? 0)
                    then Food.kNormal else Food.type f) /\
    forall x y ty,
      Food.Update x y ty f' =
      {| Food.type := ty; Food.pos := mkPoint x y; Food.counter := Food.MAX_COUNT |}.
Proof.
  intros Hlo.
  destruct (Count_times_ok n f Hlo) as (f' & Hrun & Hc & Hp & Ht).
  exists f'. repeat split; assumption.
Qed.

Lemma Count_times_counter_type_witness :
  exists f',
    Food.Count_times 3 Food.new = Ok f' /\
    Food.counter f' = Food.counter Food.new - Z.of_nat 3 /\
    Food.pos f' = Food.pos Food.new /\
    Food.type f' = (if (0 <? Z.of_nat 3) && (Food.counter Food.new - Z.of_nat 3 <=? 0)
                    then Food.kNormal else Food.type Food.new) /\
    forall x y ty,
      Food.Update x y ty f' =
      {| Food.type := ty; Food.pos := mkPoint x y; Food.counter := Food.MAX_COUNT |}.
Proof.
  apply (Count_times_counter_type Food.new 3). vm_compute. discriminate.
Defined.

(** C2 as stated fails: a food left alone for 301 ticks has counter -1. *)
Lemma Count_times_counter_negative :
  exists f,
    Food.Count_times 301 Food.new = Ok f /\
    Food.counter f = -1 /\ ~ (0 <= Food.counter f).
Proof.
  eexists. split; [vm_compute; reflexivity|].
  split; [reflexivity | cbn; lia].
Qed.

Lemma history_counter (f : Food.t) :
  Food_history f -> Food.counter f <= Food.MAX_COUNT.
Proof.
  induction 1 as [| x y ty f _ _ | f f' _ IH Hcount]; try reflexivity.
  unfold Food.Count in Hcount.
  destruct (Z.eqb_spec (Food.counter f) INT_MIN); [discriminate|].
  inversion Hcount; subst. cbn [Food.counter]. lia.
Qed.

(** C9.  Every food the program holds is [kNormal] after 300 calls of
    [Count()] with no [Update] in between, whatever its type was, and is
    still where it was (the calls return unless the [int] counter
    underflows).  300 is the exact lifetime: counted from a reset of the
    counter, fewer calls leave the type alone. *)
Theorem Count_300_times_Normal (f : Food.t) :
  Food_history f ->
  INT_MIN + 300 <= Food.counter f ->
  (exists f',
     Food.Count_times 300 f = Ok f' /\
     Food.type f' = Food.kNormal /\ Food.pos f' = Food.pos f) /\
  (Food.counter f = Food.MAX_COUNT ->
   forall k, (k < 300)%nat ->
     exists f', Food.Count_times k f = Ok f' /\ Food.type f' = Food.type f).
Proof.
  intros Hhi Hlo. apply history_counter in Hhi. unfold Food.MAX_COUNT in *. split.
  - destruct (Count_times_ok 300 f) as (f' & Hrun & _ & Hp & Ht); [lia|].
    exists f'. split; [exact Hrun|]. split; [|exact Hp].
    rewrite Ht. zcompare; cbn; try reflexivity; lia.
  - intros Heq k Hk.
    destruct (Count_times_ok k f) as (f' & Hrun & _ & _ & Ht); [lia|].
    exists f'. split; [exact Hrun|].
    rewrite Ht. zcompare; cbn; try reflexivity; lia.
Qed.

Lemma Count_300_times_Normal_witness :
  (exists f',
     Food.Count_times 300 (Food.Update 11 15 Food.kBoost Food.new) = Ok f' /\
     Food.type f' = Food.kNormal /\
     Food.pos f' = Food.pos (Food.Update 11 15 Food.kBoost Food.new)) /\
  (Food.counter (Food.Update 11 15 Food.kBoost Food.new) = Food.MAX_COUNT ->
   forall k, (k < 300)%nat ->
     exists f', Food.Count_times k (Food.Update 11 15 Food.kBoost Food.new) = Ok f' /\
                Food.type f' = Food.type (Food.Update 11 15 Food.kBoost Food.new)).
Proof.
  apply (Count_300_times_Normal (Food.Update 11 15 Food.kBoost Food.new)).
  - apply hist_Food_Update, hist_Food.
  - vm_compute. discriminate.
Defined.

(** ** Snake: size and body *)

Section SnakeBody.

Import Snake.

Lemma UpdateHead_frame (s : Snake.t) :
  size (UpdateHead s) = size s /\ body (UpdateHead s) = body s /\
  growing (UpdateHead s) = growing s /\ cutting (UpdateHead s) = cutting s.
Proof.
  unfold UpdateHead. destruct (direction s); members; repeat split.
Qed.

Lemma erase_front_inv (cut : Z) (b b' : list SDL_Point) :
  erase_front cut b = Ok b' ->
  0 <= cut <= Z.of_nat (length b) /\
  b' = drop (Z.to_nat cut) b /\
  Z.of_nat (length b') = Z.of_nat (length b) - cut.
Proof.
  unfold erase_front.
  destruct (Z.leb_spec 0 cut); destruct (Z.leb_spec cut (Z.of_nat (length b)));
    cbn [andb]; intros Hret; inversion Hret; subst.
  rewrite length_drop. repeat split; lia.
Qed.

Lemma erase_front_ok (cut : Z) (b : list SDL_Point) :
  0 <= cut <= Z.of_nat (length b) ->
  erase_front cut b = Ok (drop (Z.to_nat cut) b).
Proof.
  intros Hcut. unfold erase_front.
  destruct (Z.leb_spec 0 cut); destruct (Z.leb_spec cut (Z.of_nat (length b)));
    cbn [andb]; try reflexivity; lia.
Qed.

(** What a call of [UpdateBody] that returns has done to size, body length
    and the two flags. *)
Lemma UpdateBody_inv (cur prev : SDL_Point) (s s' : Snake.t) :
  UpdateBody cur prev s = Ok s' ->
  let grown := if growing s then 1 else 0 in
  let cut := if cutting s then Z.min 3 (size s + grown) else 0 in
  size s' = size s + grown - cut /\
  Z.of_nat (length (body s')) = Z.of_nat (length (body s)) + grown - cut /\
  growing s' = false /\ cutting s' = false.
Proof.
  unfold UpdateBody, incr_size. members.
  destruct (growing s) eqn:Hg; members.
  - destruct (Z.eqb_spec (size s) INT_MAX); members; [discriminate|].
    destruct (cutting s) eqn:Hc; members.
    + destruct (erase_front _ _) as [b| |] eqn:He; members; try discriminate.
      apply erase_front_inv in He. destruct He as (Hr & _ & Hl).
      rewrite length_app in Hl. cbn [length] in Hl.
      intros H; inversion H; subst; clear H.
      destruct (existsb _ _); members; repeat split; lia.
    + intros H; inversion H; subst; clear H.
      destruct (existsb _ _); members; rewrite ?length_app; cbn [length];
        repeat split; try assumption; lia.
  - destruct (erase_front 1 _) as [b1| |] eqn:He1; members; try discriminate.
    apply erase_front_inv in He1. destruct He1 as (_ & _ & Hl1).
    rewrite length_app in Hl1. cbn [length] in Hl1.
    destruct (cutting s) eqn:Hc; members.
    + destruct (erase_front _ b1) as [b| |] eqn:He; members; try discriminate.
      apply erase_front_inv in He. destruct He as (Hr & _ & Hl).
      intros H; inversion H; subst; clear H.
      destruct (existsb _ _); members; repeat split; try assumption; lia.
    + intros H; inversion H; subst; clear H.
      destruct (existsb _ _); members; repeat split; try assumption; lia.
Qed.

(** A call of [UpdateBody] whose erasures and increment are in bounds
    returns. *)
Lemma UpdateBody_ok (cur prev : SDL_Point) (s : Snake.t) :
  UpdateBody_in_bounds s -> exists s', UpdateBody cur prev s = Ok s'.
Proof.
  unfold UpdateBody_in_bounds, UpdateBody, incr_size. intros [Hsize Hcut]. members.
  destruct (growing s) eqn:Hg; members.
  - specialize (Hsize eq_refl).
    destruct (Z.eqb_spec (size s) INT_MAX); [lia|]. members.
    destruct (cutting s) eqn:Hc; members; [|eexists; reflexivity].
    specialize (Hcut eq_refl).
    rewrite erase_front_ok by (rewrite length_app; cbn [length]; lia).
    members. eexists; reflexivity.
  - rewrite erase_front_ok by (rewrite length_app; cbn [length]; lia). members.
    destruct (cutting s) eqn:Hc; members; [|eexists; reflexivity].
    specialize (Hcut eq_refl).
    rewrite erase_front_ok
      by (rewrite length_drop, length_app; cbn [length]; lia).
    members. eexists; reflexivity.
Qed.

Lemma UpdateBody_in_bounds_UpdateHead (s : Snake.t) :
  UpdateBody_in_bounds s -> UpdateBody_in_bounds (UpdateHead s).
Proof.
  unfold UpdateBody_in_bounds.
  destruct (UpdateHead_frame s) as (-> & -> & -> & ->). trivial.
Qed.

Lemma Update_same_cell (s : Snake.t) :
  enters_new_cell s = false -> Update s = Ok (UpdateHead s).
Proof. unfold enters_new_cell, Update. intros ->. reflexivity. Qed.

Lemma Update_new_cell (s : Snake.t) :
  enters_new_cell s = true ->
  Update s = UpdateBody (head_cell (UpdateHead s)) (head_cell s) (UpdateHead s).
Proof. unfold enters_new_cell, Update. intros ->. reflexivity. Qed.

(** The constructor returns a snake of two body cells and size 3. *)
Lemma new_ok (gw gh x y : Z) (sp : Fp.float) :
  exists s, Snake.new gw gh x y sp = Ok s /\
            size s = 3 /\ length (body s) = 2%nat /\
            growing s = false /\ cutting s = false /\ alive s = true /\
            direction s = kUp /\ speed s = sp.
Proof.
  eexists. unfold Snake.new, PushBack, incr_size. members.
  cbn [Z.eqb INT_MAX]. members. cbn [Z.add Pos.add Z.eqb Pos.eqb]. members.
  cbn [Z.add Pos.add Pos.succ]. repeat split.
Qed.

End SnakeBody.

Lemma player_constructed :
  Snake.new 32 32 11 16 (Fp.float_lit 15 100) = Ok Scenario.player.
Proof. vm_compute. reflexivity. Qed.

Lemma size_counts_head_step (s s' : Snake.t) :
  size_counts_head s -> Snake.Update s = Ok s' -> size_counts_head s'.
Proof.
  unfold size_counts_head. intros Hs Hup.
  destruct (UpdateHead_frame s) as (Hsize & Hbody & Hg & Hc).
  destruct (Snake.enters_new_cell s) eqn:Hcell.
  - rewrite Update_new_cell in Hup by assumption.
    apply UpdateBody_inv in Hup. cbv zeta in Hup.
    destruct Hup as (Hs' & Hl' & _). rewrite Hsize, Hbody, Hg, Hc in *. lia.
  - rewrite Update_same_cell in Hup by assumption.
    inversion Hup; subst. rewrite Hsize, Hbody. exact Hs.
Qed.

Lemma Update_ok (s : Snake.t) :
  (Snake.enters_new_cell s = true -> UpdateBody_in_bounds s) ->
  exists s', Snake.Update s = Ok s'.
Proof.
  intros Hb. destruct (Snake.enters_new_cell s) eqn:Hcell.
  - rewrite Update_new_cell by assumption.
    apply UpdateBody_ok, UpdateBody_in_bounds_UpdateHead, Hb. reflexivity.
  - rewrite Update_same_cell by assumption. eexists; reflexivity.
Qed.

Lemma history_size_counts_head (s : Snake.t) :
  Snake_history s -> size_counts_head s.
Proof.
  induction 1 as [gw gh x y sp s Hnew | s s' _ IH Hup | s _ IH | s _ IH
                 | d s _ IH | v s _ IH]; try exact IH.
  - destruct (new_ok gw gh x y sp) as (s0 & Hs0 & Hsize & Hlen & _).
    rewrite Hnew in Hs0. inversion Hs0; subst s0.
    unfold size_counts_head. rewrite Hsize, Hlen. reflexivity.
  - exact (size_counts_head_step s s' IH Hup).
Qed.

(** C3, as the code has it.  For every snake, after construction and after
    every [Update] call (and whatever [GrowBody], [CutBody] and the writes of
    heading and speed happen in between), [size] is the number of body cells
    plus one: the head is counted.  An [Update] whose erasures stay inside
    the body returns, and the relation holds again after it. *)
Theorem size_is_body_length_plus_one (s : Snake.t) :
  Snake_history s ->
  Snake.size s = Z.of_nat (length (Snake.body s)) + 1 /\
  ((Snake.enters_new_cell s = true -> UpdateBody_in_bounds s) ->
   exists s', Snake.Update s = Ok s' /\
              Snake.size s' = Z.of_nat (length (Snake.body s')) + 1).
Proof.
  intros Hs. pose proof (history_size_counts_head s Hs) as Hinv.
  split; [exact Hinv|]. intros Hb.
  destruct (Update_ok s Hb) as (s' & Hup).
  exists s'. split; [exact Hup|]. exact (size_counts_head_step s s' Hinv Hup).
Qed.

Lemma size_is_body_length_plus_one_witness :
  Snake.size Scenario.player = Z.of_nat (length (Snake.body Scenario.player)) + 1 /\
  ((Snake.enters_new_cell Scenario.player = true -> UpdateBody_in_bounds Scenario.player) ->
   exists s', Snake.Update Scenario.player = Ok s' /\
              Snake.size s' = Z.of_nat (length (Snake.body s')) + 1).
Proof.
  apply (size_is_body_length_plus_one Scenario.player).
  apply (hist_new 32 32 11 16 (Fp.float_lit 15 100)).
  vm_compute. reflexivity.
Defined.

(** C3 as stated fails at the constructor already: the snake of [Game::Game]
    has two body cells and size 3. *)
Lemma new_size_exceeds_body_length :
  exists s, Snake.new 32 32 11 16 (Fp.float_lit 15 100) = Ok s /\
            Snake.size s = 3 /\ length (Snake.body s) = 2%nat /\
            Snake.size s <> Z.of_nat (length (Snake.body s)).
Proof.
  exists Scenario.player. split; [vm_compute; reflexivity|].
  repeat split. vm_compute. discriminate.
Qed.

(** C6, as the code has it.  An [Update] that takes the head into a new cell,
    with the erasures of [UpdateBody] inside the body vector, leaves [size]
    as it was if neither flag is set, one more if only [growing] is set, and
    [max(0, size + (growing ? 1 : 0) - 3)] if [cutting] is set; both flags
    are clear afterwards.  An [Update] that leaves the head in its cell
    changes neither [size] nor the flags: the requests stay pending. *)
Theorem Update_size (s : Snake.t) :
  (Snake.enters_new_cell s = true -> UpdateBody_in_bounds s) ->
  let grown := if Snake.growing s then 1 else 0 in
  exists s',
    Snake.Update s = Ok s' /\
    if Snake.enters_new_cell s then
      Snake.size s' = (if Snake.cutting s
                       then Z.max 0 (Snake.size s + grown - 3)
                       else Snake.size s + grown) /\
      Snake.growing s' = false /\ Snake.cutting s' = false
    else
      Snake.size s' = Snake.size s /\
      Snake.growing s' = Snake.growing s /\ Snake.cutting s' = Snake.cutting s.
Proof.
  intros Hb grown. destruct (Update_ok s Hb) as (s' & Hup).
  exists s'. split; [exact Hup|].
  destruct (UpdateHead_frame s) as (Hsize & Hbody & Hg & Hc).
  destruct (Snake.enters_new_cell s) eqn:Hcell.
  - specialize (Hb eq_refl). destruct Hb as [_ Hcut].
    rewrite Update_new_cell in Hup by assumption.
    apply UpdateBody_inv in Hup. cbv zeta in Hup.
    destruct Hup as (Hs' & _ & Hg' & Hc').
    rewrite Hsize, Hg, Hc in Hs'. fold grown in Hs', Hcut.
    split; [|split; assumption].
    destruct (Snake.cutting s); [specialize (Hcut eq_refl)|]; lia.
  - rewrite Update_same_cell in Hup by assumption.
    inversion Hup; subst. repeat split; assumption.
Qed.

Lemma Update_size_witness :
  let s := Snake.CutBody (Snake.GrowBody Scenario.player) in
  let grown := if Snake.growing s then 1 else 0 in
  exists s',
    Snake.Update s = Ok s' /\
    if Snake.enters_new_cell s then
      Snake.size s' = (if Snake.cutting s
                       then Z.max 0 (Snake.size s + grown - 3)
                       else Snake.size s + grown) /\
      Snake.growing s' = false /\ Snake.cutting s' = false
    else
      Snake.size s' = Snake.size s /\
      Snake.growing s' = Snake.growing s /\ Snake.cutting s' = Snake.cutting s.
Proof.
  apply (Update_size (Snake.CutBody (Snake.GrowBody Scenario.player))).
  intros _. vm_compute. repeat split; intros; discriminate.
Defined.

(** C6 as stated fails for a snake that stays in its cell.  The player enters
    (11,15) with its first [Update]; asked to grow there, its next [Update]
    stays in the cell and leaves the size at 3, with the request pending. *)
Lemma Update_same_cell_keeps_size :
  exists s1 s2,
    Snake.Update Scenario.player = Ok s1 /\
    Snake.growing (Snake.GrowBody s1) = true /\
    Snake.cutting (Snake.GrowBody s1) = false /\
    Snake.size (Snake.GrowBody s1) = 3 /\
    Snake.Update (Snake.GrowBody s1) = Ok s2 /\
    Snake.size s2 = 3 /\ Snake.size s2 <> 3 + 1 /\ Snake.growing s2 = true.
Proof.
  eexists. eexists. split; [vm_compute; reflexivity|].
  split; [reflexivity|]. split; [reflexivity|]. split; [reflexivity|].
  split; [vm_compute; reflexivity|].
  split; [reflexivity|]. split; [discriminate | reflexivity].
Qed.

(** C4: the code runs out of the body vector.  After 26 updates of the game
    seeded with [seed_cuts] (a Cut food, then a Normal food, eaten) the
    player has size 2 and the one body cell (11,13), and its next [Update]
    enters a new cell.  With [CutBody()] requested, that [Update] erases
    [min(3, size) = 2] cells from a vector of one: undefined behaviour, not
    size 0 with an empty body.  The game itself gets there seven updates
    later, on the Cut food of (11,11). *)
Theorem CutBody_erases_past_the_body :
  exists g,
    (do g0 <- Scenario.game Scenario.seed_cuts; Game.Update_times 26 g0) = Ok g /\
    Snake.size (Game.snake g) = 2 /\
    Snake.body (Game.snake g) = [mkPoint 11 13] /\
    Snake.head_cell (Game.snake g) = mkPoint 11 12 /\
    Snake.growing (Game.snake g) = false /\
    Snake.enters_new_cell (Snake.CutBody (Game.snake g)) = true /\
    Snake.Update (Snake.CutBody (Game.snake g)) = Undefined /\
    Game.Update_times 7 g = Undefined.
Proof.
  eexists. split; [vm_compute; reflexivity|].
  repeat split; vm_compute; reflexivity.
Qed.

(** C1: the code lets the speed pass [MAX_SPEED].  In the game seeded with
    [seed_boosts] the player eats four Boost foods in 13 updates and moves at
    0.35, above [MAX_SPEED = 0.3]: the Boost branch adds 0.05 without a test.
    The test of the Normal branch comes before its addition: the 31st Normal
    food takes a snake that started at 0.15 from just under 0.3 to 0.305. *)
Theorem speed_exceeds_MAX_SPEED :
  Snake.MAX_SPEED = S754_finite false 10066330 (-25) /\
  (exists g,
     (do g0 <- Scenario.game Scenario.seed_boosts; Game.Update_times 13 g0) = Ok g /\
     Snake.speed (Game.snake g) = S754_finite false 11744052 (-25) /\
     Fp.flt Snake.MAX_SPEED (Snake.speed (Game.snake g)) = true /\
     Game.scores g = [12; 1]) /\
  Snake.speed (Scenario.eat_times 31 Food.kNormal Scenario.player)
    = S754_finite false 10234097 (-25) /\
  Fp.flt Snake.MAX_SPEED
    (Snake.speed (Scenario.eat_times 31 Food.kNormal Scenario.player)) = true.
Proof.
  split; [vm_compute; reflexivity|]. split.
  - eexists. split; [vm_compute; reflexivity|].
    repeat split; vm_compute; reflexivity.
  - split; vm_compute; reflexivity.
Qed.

(** ** Snake: navigation *)

Section Navigation.

Import Snake.

Lemma NextDirection_kRight (dir : Direction) : NextDirection dir = kRight.
Proof. destruct dir; reflexivity. Qed.

(** Once a probe has found its cell taken, the loop answers [kRight]
    whenever the cell to the right is taken too: every later probe looks at
    that one cell. *)
Lemma Navigate_avoid_stuck (probes : nat) (s : Snake.t) (x y : Z) :
  SnakeCell (x + 1) y s = true ->
  Navigate_avoid probes s x y kRight = kRight.
Proof.
  intros Hright. induction probes as [|k IH]; [reflexivity|].
  cbn [Navigate_avoid NextPos]. rewrite Hright. cbn [negb].
  rewrite NextDirection_kRight. exact IH.
Qed.

(** The loop that picks the target, for any starting values of its locals:
    either no food is nearer than [min_distance] and [index] is returned as
    it was, or the answer is the first food at the least distance. *)
Lemma nearest_from_spec (x y : Z) (foods : list Food.t) :
  forall i min_distance index : Z,
    let r := nearest_from i x y foods min_distance index in
    (r = index /\ Forall (fun f => min_distance <= distance x y f) foods) \/
    (exists (k : nat) (fk : Food.t),
        foods !! k = Some fk /\ r = i + Z.of_nat k /\
        distance x y fk < min_distance /\
        forall (j : nat) (fj : Food.t), foods !! j = Some fj ->
          distance x y fk <= distance x y fj /\
          ((j < k)%nat -> distance x y fk < distance x y fj)).
Proof.
  induction foods as [|f rest IH]; intros i m idx; cbn [nearest_from].
  - left. split; [reflexivity | constructor].
  - destruct (Z.ltb_spec (distance x y f) m) as [Hlt|Hge].
    + right. destruct (IH (i + 1) (distance x y f) i)
        as [[Hr Hall] | (k & fk & Hk & Hr & Hd & Hmin)].
      * exists 0%nat, f. split; [reflexivity|]. split; [lia|]. split; [exact Hlt|].
        intros [|j] fj Hj; cbn in Hj.
        -- inversion Hj; subst. split; [lia | intros; lia].
        -- rewrite Forall_lookup in Hall. specialize (Hall j fj Hj).
           split; [exact Hall | intros; lia].
      * exists (S k), fk. split; [exact Hk|]. split; [lia|]. split; [lia|].
        intros [|j] fj Hj; cbn in Hj.
        -- inversion Hj; subst. split; [lia | intros; lia].
        -- destruct (Hmin j fj Hj) as [Hle Hfirst].
           split; [exact Hle | intros; apply Hfirst; lia].
    + destruct (IH (i + 1) m idx) as [[Hr Hall] | (k & fk & Hk & Hr & Hd & Hmin)].
      * left. split; [exact Hr | constructor; assumption].
      * right. exists (S k), fk. split; [exact Hk|]. split; [lia|]. split; [exact Hd|].
        intros [|j] fj Hj; cbn in Hj.
        -- inversion Hj; subst. split; [lia | intros; lia].
        -- destruct (Hmin j fj Hj) as [Hle Hfirst].
           split; [exact Hle | intros; apply Hfirst; lia].
Qed.

(** The target is an index of the snapshot, unless the snapshot is empty. *)
Lemma Navigate_target_in_range (s : Snake.t) (foods : list Food.t) :
  foods <> [] -> exists food, FoodManager.at_ foods (Navigate_target s foods) = Ok food.
Proof.
  intros Hne. unfold Navigate_target, FoodManager.at_.
  destruct (nearest_from_spec (pt_x (head_cell s)) (pt_y (head_cell s)) foods
              0 (grid_width s + grid_height s) 0)
    as [[-> _] | (k & fk & Hk & -> & _)].
  - destruct foods as [|f rest]; [contradiction|]. exists f. reflexivity.
  - exists fk. destruct (Z.ltb_spec (0 + Z.of_nat k) 0); [lia|].
    replace (Z.to_nat (0 + Z.of_nat k)) with k by lia. rewrite Hk. reflexivity.
Qed.

(** [Navigate] writes the heading and nothing else, and returns on every
    snapshot that is not empty. *)
Lemma Navigate_ok (s : Snake.t) (foods : list Food.t) :
  foods <> [] -> exists d, Navigate foods s = Ok (set_direction d s).
Proof.
  intros Hne. destruct (Navigate_target_in_range s foods Hne) as (food & Hfood).
  unfold Navigate. rewrite Hfood. cbn [bind]. eexists; reflexivity.
Qed.

End Navigation.

(** C7: the code does not step through the cycle.  [NextDirection] answers
    [kRight] for every heading, because each [case] falls through to the
    last assignment: from [kRight] it does not go on to [kDown], nor from
    [kDown] to [kLeft].  The player heading down onto its own body is sent
    right, where one step of the cycle would send it left. *)
Theorem NextDirection_falls_through :
  (forall dir, Snake.NextDirection dir = Snake.kRight) /\
  Snake.NextDirection Snake.kRight <> Snake.kDown /\
  Snake.NextDirection Snake.kDown <> Snake.kLeft /\
  Snake.Navigate_heading Snake.kDown 11 16 Scenario.food_below = Snake.kDown /\
  Snake.SnakeCell 11 17 Scenario.player_down = true /\
  Snake.Navigate [Scenario.food_below] Scenario.player_down
    = Ok (Snake.set_direction Snake.kRight Scenario.player_down).
Proof.
  split; [exact NextDirection_kRight|].
  repeat split; try discriminate; vm_compute; reflexivity.
Qed.

(** The target is the first of the nearest foods, when that food is nearer
    than [grid_width + grid_height] or is food 0. *)
Lemma Navigate_target_first_nearest
  (s : Snake.t) (foods : list Food.t) (i : nat) (fi : Food.t) :
  let x := pt_x (Snake.head_cell s) in
  let y := pt_y (Snake.head_cell s) in
  foods !! i = Some fi ->
  (forall (k : nat) (fk : Food.t), foods !! k = Some fk ->
     Snake.distance x y fi <= Snake.distance x y fk /\
     ((k < i)%nat -> Snake.distance x y fi < Snake.distance x y fk)) ->
  Snake.distance x y fi < Snake.grid_width s + Snake.grid_height s \/ i = 0%nat ->
  Snake.Navigate_target s foods = Z.of_nat i.
Proof.
  intros x y Hi Hleast Hnear. unfold Snake.Navigate_target. fold x y.
  destruct (nearest_from_spec x y foods 0 (Snake.grid_width s + Snake.grid_height s) 0)
    as [[Hr Hall] | (k & fk & Hk & Hr & Hd & Hmin)]; rewrite Hr.
  - destruct Hnear as [Hnear | ->]; [|reflexivity].
    rewrite Forall_lookup in Hall. specialize (Hall i fi Hi). lia.
  - destruct (Hleast k fk Hk) as [Hle Hbefore].
    destruct (Hmin i fi Hi) as [Hle' Hfirst].
    destruct (Nat.lt_trichotomy k i) as [Hlt | [-> | Hgt]];
      [specialize (Hbefore Hlt) | | specialize (Hfirst Hgt)]; lia.
Qed.

(** The target is never a food that has an equally near food before it. *)
Lemma Navigate_target_not_later
  (s : Snake.t) (foods : list Food.t) (i j : nat) (fi fj : Food.t) :
  let x := pt_x (Snake.head_cell s) in
  let y := pt_y (Snake.head_cell s) in
  foods !! i = Some fi -> foods !! j = Some fj -> (i < j)%nat ->
  Snake.distance x y fi = Snake.distance x y fj ->
  Snake.Navigate_target s foods <> Z.of_nat j.
Proof.
  intros x y Hi Hj Hij Htie. unfold Snake.Navigate_target. fold x y.
  destruct (nearest_from_spec x y foods 0 (Snake.grid_width s + Snake.grid_height s) 0)
    as [[Hr Hall] | (k & fk & Hk & Hr & Hd & Hmin)]; rewrite Hr; [lia|].
  intros Heq. assert (k = j) by lia. subst k.
  rewrite Hj in Hk. inversion Hk; subst fk.
  destruct (Hmin i fi Hi) as [_ Hfirst]. specialize (Hfirst Hij). lia.
Qed.

(** C8.  When two foods of the snapshot are equally far from the head,
    [Navigate] never targets the one with the higher index.  In the game's
    snapshot of two foods it targets the one with the lower index, food 0,
    and heads for it.  In a longer snapshot it targets the lower of the two
    whenever no food is nearer and no food before it is as near, provided
    the distance is below [grid_width + grid_height] or the index is 0, the
    initial value of the target. *)
Theorem Navigate_tie_targets_lower_index
  (s : Snake.t) (foods : list Food.t) (i j : nat) (fi fj : Food.t) :
  let x := pt_x (Snake.head_cell s) in
  let y := pt_y (Snake.head_cell s) in
  foods !! i = Some fi -> foods !! j = Some fj -> (i < j)%nat ->
  Snake.distance x y fi = Snake.distance x y fj ->
  Snake.Navigate_target s foods <> Z.of_nat j /\
  (length foods = 2%nat ->
   Snake.Navigate_target s foods = Z.of_nat i /\
   Snake.Navigate foods s =
     Ok (Snake.set_direction
           (Snake.Navigate_avoid 4 s x y
              (Snake.Navigate_heading (Snake.direction s) x y fi)) s)) /\
  ((forall (k : nat) (fk : Food.t), foods !! k = Some fk ->
      Snake.distance x y fi <= Snake.distance x y fk /\
      ((k < i)%nat -> Snake.distance x y fi < Snake.distance x y fk)) ->
   Snake.distance x y fi < Snake.grid_width s + Snake.grid_height s \/ i = 0%nat ->
   Snake.Navigate_target s foods = Z.of_nat i).
Proof.
  intros x y Hi Hj Hij Htie.
  split; [exact (Navigate_target_not_later s foods i j fi fj Hi Hj Hij Htie)|].
  split; [|exact (Navigate_target_first_nearest s foods i fi Hi)].
  intros Hlen.
  destruct foods as [|f0 [|f1 [|f2 rest]]]; try discriminate Hlen.
  assert (i = 0%nat /\ j = 1%nat) as [-> ->].
  { apply lookup_lt_Some in Hj. cbn [length] in Hj. lia. }
  cbn in Hi, Hj. inversion Hi; inversion Hj; subst f0 f1.
  assert (Htarget : Snake.Navigate_target s [fi; fj] = Z.of_nat 0).
  { apply (Navigate_target_first_nearest s [fi; fj] 0 fi eq_refl); [|right; reflexivity].
    intros [|[|k]] fk Hk; cbn in Hk; inversion Hk; subst fk; fold x y;
      (split; [lia | intros; lia]). }
  split; [exact Htarget|].
  unfold Snake.Navigate. rewrite Htarget. reflexivity.
Qed.

Lemma Navigate_tie_targets_lower_index_witness :
  Snake.distance 11 16 Scenario.food_left = 5 /\
  Snake.distance 11 16 Scenario.food_right = 5 /\
  Snake.Navigate_target Scenario.player [Scenario.food_left; Scenario.food_right]
    <> Z.of_nat 1 /\
  Snake.Navigate_target Scenario.player [Scenario.food_left; Scenario.food_right]
    = Z.of_nat 0.
Proof.
  pose proof (Navigate_tie_targets_lower_index Scenario.player
                [Scenario.food_left; Scenario.food_right] 0 1
                Scenario.food_left Scenario.food_right
                eq_refl eq_refl (Nat.lt_0_succ 0) eq_refl)
    as (Hhigher & Htwo & _).
  split; [reflexivity|]. split; [reflexivity|].
  split; [exact Hhigher|]. apply Htwo. reflexivity.
Defined.

(** ** Game: scores and the freeze *)

Lemma bind_Ok {A B : Type} (m : result A) (k : A -> result B) (b : B) :
  bind m k = Ok b -> exists a, m = Ok a /\ k a = Ok b.
Proof. destruct m as [a| |]; cbn; intros H; [exists a; auto | discriminate..]. Qed.

(** [PlaceFood] touches the food vector and the engine only. *)
Lemma PlaceFood_loop_frame (index : Z) (g g' : Game.t) (tape : list nat) :
  Game.PlaceFood_loop index g tape = Ok g' ->
  Game.snake g' = Game.snake g /\ Game.enemy g' = Game.enemy g /\
  Game.scores g' = Game.scores g.
Proof.
  enough (Hboth :
    (Game.PlaceFood_loop index g tape = Ok g' ->
     Game.snake g' = Game.snake g /\ Game.enemy g' = Game.enemy g /\
     Game.scores g' = Game.scores g) /\
    (forall r, Game.PlaceFood_loop index g (r :: tape) = Ok g' ->
     Game.snake g' = Game.snake g /\ Game.enemy g' = Game.enemy g /\
     Game.scores g' = Game.scores g)) by apply Hboth.
  induction tape as [|ry tape' [IH0 IH1]].
  - split; [discriminate | intros r; discriminate].
  - split; [apply IH1|]. intros rx. cbn [Game.PlaceFood_loop].
    destruct (_ && _); [|exact IH0].
    destruct tape' as [|rn tape'']; [discriminate|].
    intros Hplace. apply bind_Ok in Hplace. destruct Hplace as (fm & _ & Hret).
    inversion Hret; subst. repeat split.
Qed.

Lemma PlaceFood_each_frame (n : nat) : forall (i : Z) (g g' : Game.t),
  Game.PlaceFood_each n i g = Ok g' ->
  Game.snake g' = Game.snake g /\ Game.enemy g' = Game.enemy g /\
  Game.scores g' = Game.scores g.
Proof.
  induction n as [|n IH]; intros i g g' Hplace; cbn [Game.PlaceFood_each] in Hplace.
  - inversion Hplace; subst. repeat split.
  - apply bind_Ok in Hplace. destruct Hplace as (g1 & Hone & Hrest).
    apply PlaceFood_loop_frame in Hone. apply IH in Hrest.
    destruct Hone as (Hs & He & Hsc). destruct Hrest as (Hs' & He' & Hsc').
    repeat split; congruence.
Qed.

Lemma new_scores (gw gh : Z) (seed : list nat) (g : Game.t) :
  Game.new gw gh seed = Ok g -> Game.scores g = [0; 1].
Proof.
  unfold Game.new. intros Hnew.
  apply bind_Ok in Hnew. destruct Hnew as (snake & _ & Hnew).
  apply bind_Ok in Hnew. destruct Hnew as (enemy & _ & Hnew).
  apply PlaceFood_each_frame in Hnew. destruct Hnew as (_ & _ & ->). reflexivity.
Qed.

(** C10.  A game that has been constructed, with no food eaten yet, has 0 as
    the player's score and 1 as the enemy's: [GetScore()] returns [0, 1], and
    the report of [main] on these two numbers is "lost". *)
Theorem new_GetScore (gw gh : Z) (seed : list nat) (g : Game.t) :
  Game.new gw gh seed = Ok g ->
  Game.scores g = [0; 1] /\
  Game.GetScore g = Ok [0; 1] /\
  (do score <- Game.GetScore g; main_report score) = Ok Lost.
Proof.
  intros Hnew. apply new_scores in Hnew.
  unfold Game.GetScore. rewrite Hnew. repeat split.
Qed.

Lemma new_GetScore_witness :
  exists g,
    Scenario.game Scenario.seed_turn = Ok g /\
    Game.scores g = [0; 1] /\
    Game.GetScore g = Ok [0; 1] /\
    (do score <- Game.GetScore g; main_report score) = Ok Lost.
Proof.
  eexists. split; [vm_compute; reflexivity|].
  apply (new_GetScore 32 32 Scenario.seed_turn). vm_compute. reflexivity.
Defined.

Lemma HandleInput_heading (input : option Snake.Direction) (s : Snake.t) :
  exists d, Game.HandleInput input s = Snake.set_direction d s.
Proof.
  destruct input as [d|]; cbn [Game.HandleInput].
  - exists d. reflexivity.
  - exists (Snake.direction s). destruct s; reflexivity.
Qed.

(** What [same_but_headings] keeps, member by member. *)
Lemma same_but_headings_members (g g' : Game.t) :
  same_but_headings g g' ->
  (forall who : Game.t -> Snake.t, who = Game.snake \/ who = Game.enemy ->
     Snake.head_x (who g') = Snake.head_x (who g) /\
     Snake.head_y (who g') = Snake.head_y (who g) /\
     Snake.body (who g') = Snake.body (who g) /\
     Snake.size (who g') = Snake.size (who g) /\
     Snake.speed (who g') = Snake.speed (who g) /\
     Snake.alive (who g') = Snake.alive (who g) /\
     Snake.growing (who g') = Snake.growing (who g) /\
     Snake.cutting (who g') = Snake.cutting (who g)) /\
  Game.food_manager g' = Game.food_manager g /\
  Game.scores g' = Game.scores g /\
  Game.engine g' = Game.engine g.
Proof.
  intros (d_snake & d_enemy & ->). split; [|repeat split].
  intros who [-> | ->]; repeat split.
Qed.

(** C5, as the code has it.  If either snake is not alive when a tick
    starts, [Game::Update] returns at once: neither snake (head, body, size,
    speed, flags), nor the foods, the scores or the engine change.  The two
    steps of the tick that come before it still run: the input may turn the
    player and [Navigate] may turn the enemy, so the headings, and only
    they, can change. *)
Theorem dead_snake_freezes_all_but_headings
  (g : Game.t) (input : option Snake.Direction) :
  Snake.alive (Game.snake g) = false \/ Snake.alive (Game.enemy g) = false ->
  Game.Update g = Ok g /\
  (Game.food_manager g <> [] ->
   exists g', Game.Run_iteration input g = Ok g' /\ same_but_headings g g').
Proof.
  intros Hdead. split.
  - unfold Game.Update. destruct Hdead as [-> | ->]; cbn [negb orb];
      [|rewrite orb_true_r]; reflexivity.
  - intros Hfoods. unfold Game.Run_iteration, same_but_headings.
    destruct (HandleInput_heading input (Game.snake g)) as (d_snake & ->).
    cbn [Game.food_manager Game.enemy Game.set_snake FoodManager.GetFoods].
    destruct (Navigate_ok (Game.enemy g) (Game.food_manager g) Hfoods)
      as (d_enemy & ->).
    cbn [bind]. eexists. split; [|exists d_snake, d_enemy; reflexivity].
    unfold Game.Update.
    cbn [Game.snake Game.enemy Game.set_snake Game.set_enemy
         Snake.alive Snake.set_direction].
    destruct Hdead as [-> | ->]; cbn [negb orb]; [|rewrite orb_true_r]; reflexivity.
Qed.

Lemma dead_snake_freezes_all_but_headings_witness :
  exists g,
    (do g0 <- Scenario.game Scenario.seed_turn; Game.Run Scenario.keys_turn g0) = Ok g /\
    Game.Update g = Ok g /\
    (Game.food_manager g <> [] ->
     exists g', Game.Run_iteration None g = Ok g' /\ same_but_headings g g').
Proof.
  eexists. split; [vm_compute; reflexivity|].
  apply dead_snake_freezes_all_but_headings. left. vm_compute. reflexivity.
Defined.

(** C5 as stated fails for the headings.  With [seed_turn] and [keys_turn],
    tick 21 takes the player into (11,14), a cell of its own body, which
    kills it, and takes the enemy, heading up, into row 19, the row of the
    food on (3,19).  In tick 22 no key is pressed, [Game::Update] does
    nothing, and [Navigate] turns the enemy to the left. *)
Lemma Navigate_turns_frozen_enemy :
  exists g g',
    (do g0 <- Scenario.game Scenario.seed_turn; Game.Run Scenario.keys_turn g0) = Ok g /\
    Snake.alive (Game.snake g) = false /\
    Snake.alive (Game.enemy g) = true /\
    Snake.head_cell (Game.enemy g) = mkPoint 21 19 /\
    map Food.pos (Game.food_manager g) = [mkPoint 0 0; mkPoint 3 19] /\
    Snake.direction (Game.enemy g) = Snake.kUp /\
    Game.Run_iteration None g = Ok g' /\
    Snake.direction (Game.enemy g') = Snake.kLeft /\
    Snake.direction (Game.enemy g') <> Snake.direction (Game.enemy g).
Proof.
  eexists. eexists. split; [vm_compute; reflexivity|].
  do 5 (split; [vm_compute; reflexivity|]).
  split; [vm_compute; reflexivity|].
  split; [reflexivity | discriminate].
Qed.

(** * Further properties of the code *)

(** ** FoodManager: lookup, relocation, ageing *)

Lemma same_cell_true (x y : Z) (p : SDL_Point) :
  same_cell x y p = true <-> p = mkPoint x y.
Proof.
  unfold same_cell. destruct p as [px py]. cbn [pt_x pt_y].
  rewrite andb_true_iff, !Z.eqb_eq. split.
  - intros [-> ->]. reflexivity.
  - intros H; inversion H; auto.
Qed.

Lemma same_cell_false (x y : Z) (p : SDL_Point) :
  same_cell x y p = false <-> p <> mkPoint x y.
Proof.
  rewrite <- same_cell_true. destruct (same_cell x y p); split; congruence.
Qed.

(** The scan of [CheckFood], started at counter [i]. *)
Lemma CheckFood_from_spec (x y : Z) (foods : list Food.t) : forall i : Z,
  0 <= i ->
  let r := FoodManager.CheckFood_from i x y foods in
  (r = -1 /\ Forall (fun f => Food.pos f <> mkPoint x y) foods) \/
  (exists (k : nat) (f : Food.t),
      r = i + Z.of_nat k /\ foods !! k = Some f /\ Food.pos f = mkPoint x y /\
      forall (j : nat) (fj : Food.t),
        (j < k)%nat -> foods !! j = Some fj -> Food.pos fj <> mkPoint x y).
Proof.
  induction foods as [|food rest IH]; intros i Hi; cbn [FoodManager.CheckFood_from].
  - left. split; [reflexivity | constructor].
  - destruct (same_cell x y (Food.pos food)) eqn:Hcell.
    + right. exists 0%nat, food. apply same_cell_true in Hcell.
      split; [lia|]. split; [reflexivity|]. split; [exact Hcell|]. intros; lia.
    + apply same_cell_false in Hcell.
      destruct (IH (i + 1)) as [[Hr Hall] | (k & f & Hr & Hk & Hf & Hfirst)]; [lia| |].
      * left. split; [exact Hr | constructor; assumption].
      * right. exists (S k), f. split; [lia|]. split; [exact Hk|]. split; [exact Hf|].
        intros [|j] fj Hj Hlook; cbn in Hlook.
        -- inversion Hlook; subst. exact Hcell.
        -- apply (Hfirst j fj); [lia | exact Hlook].
Qed.

(** X1.  [CheckFood(x, y)] returns -1 exactly when no food is on the cell;
    otherwise it returns an index of the vector, the food there is on the
    cell, and no food before it is. *)
Theorem CheckFood_first_match (x y : Z) (foods : list Food.t) :
  let r := FoodManager.CheckFood x y foods in
  (r = -1 /\ Forall (fun f => Food.pos f <> mkPoint x y) foods) \/
  (0 <= r < Z.of_nat (length foods) /\
   exists f : Food.t,
     foods !! Z.to_nat r = Some f /\ Food.pos f = mkPoint x y /\
     forall (j : nat) (fj : Food.t),
       (j < Z.to_nat r)%nat -> foods !! j = Some fj -> Food.pos fj <> mkPoint x y).
Proof.
  unfold FoodManager.CheckFood.
  destruct (CheckFood_from_spec x y foods 0 ltac:(lia))
    as [[Hr Hall] | (k & f & Hr & Hk & Hf & Hfirst)].
  - left. split; assumption.
  - right. rewrite Hr. replace (Z.to_nat (0 + Z.of_nat k)) with k by lia.
    split; [apply lookup_lt_Some in Hk; lia|].
    exists f. repeat split; assumption.
Qed.

Lemma at_in_range (foods : list Food.t) (n : Z) (f : Food.t) :
  FoodManager.at_ foods n = Ok f <->
  0 <= n < Z.of_nat (length foods) /\ foods !! Z.to_nat n = Some f.
Proof.
  unfold FoodManager.at_. destruct (Z.ltb_spec n 0) as [Hneg|Hpos].
  - split; [discriminate | lia].
  - destruct (foods !! Z.to_nat n) as [f0|] eqn:Hlook.
    + apply lookup_lt_Some in Hlook as Hlt. split.
      * intros H; inversion H; subst. split; [lia | reflexivity].
      * intros [_ H]; inversion H; reflexivity.
    + split; [discriminate | intros [_ H]; discriminate].
Qed.

Lemma at_out_of_range (foods : list Food.t) (n : Z) :
  n < 0 \/ Z.of_nat (length foods) <= n -> FoodManager.at_ foods n = Undefined.
Proof.
  intros Hout. unfold FoodManager.at_. destruct (Z.ltb_spec n 0); [reflexivity|].
  rewrite lookup_ge_None_2 by lia. reflexivity.
Qed.

Lemma UpdateFood_ok (n x y : Z) (ty : Food.Type_) (foods : list Food.t) :
  0 <= n < Z.of_nat (length foods) ->
  FoodManager.UpdateFood n x y ty foods =
  Ok (<[Z.to_nat n :=
         {| Food.type := ty; Food.pos := mkPoint x y; Food.counter := Food.MAX_COUNT |}]>
        foods).
Proof.
  intros Hn. unfold FoodManager.UpdateFood.
  destruct (foods !! Z.to_nat n) as [f|] eqn:Hlook.
  - assert (Hat : FoodManager.at_ foods n = Ok f) by (apply at_in_range; auto).
    rewrite Hat. reflexivity.
  - apply lookup_ge_None_1 in Hlook. lia.
Qed.

(** X2.  [UpdateFood(n, x, y, type)] on an index of the vector relocates
    that food and no other: the vector keeps its length, food [n] is on
    [(x, y)] with the given type and a fresh counter, [GetType(n)] reads the
    type back, every other slot is as before, and [CheckFood(x, y)] now finds
    a food at index [n] or before.  On any other index the call, like
    [GetType], is undefined. *)
Theorem UpdateFood_relocates (n x y : Z) (ty : Food.Type_) (foods : list Food.t) :
  (0 <= n < Z.of_nat (length foods) ->
   exists foods',
     FoodManager.UpdateFood n x y ty foods = Ok foods' /\
     length foods' = length foods /\
     foods' !! Z.to_nat n =
       Some {| Food.type := ty; Food.pos := mkPoint x y; Food.counter := Food.MAX_COUNT |} /\
     FoodManager.GetType n foods' = Ok ty /\
     (forall j : nat, j <> Z.to_nat n -> foods' !! j = foods !! j) /\
     0 <= FoodManager.CheckFood x y foods' <= n) /\
  (n < 0 \/ Z.of_nat (length foods) <= n ->
   FoodManager.UpdateFood n x y ty foods = Undefined /\
   FoodManager.GetType n foods = Undefined).
Proof.
  split.
  - intros Hn. eexists. split; [apply UpdateFood_ok; exact Hn|].
    set (food := {| Food.type := ty; Food.pos := mkPoint x y;
                    Food.counter := Food.MAX_COUNT |}).
    assert (Hlook : <[Z.to_nat n := food]> foods !! Z.to_nat n = Some food)
      by (apply list_lookup_insert_eq; lia).
    split; [apply length_insert|]. split; [exact Hlook|]. split.
    + unfold FoodManager.GetType.
      assert (Hat : FoodManager.at_ (<[Z.to_nat n := food]> foods) n = Ok food)
        by (apply at_in_range; rewrite length_insert; auto).
      rewrite Hat. reflexivity.
    + split; [intros j Hj; apply list_lookup_insert_ne; congruence|].
      unfold FoodManager.CheckFood.
      destruct (CheckFood_from_spec x y (<[Z.to_nat n := food]> foods) 0 ltac:(lia))
        as [[_ Hall] | (k & f & -> & Hk & Hf & Hfirst)].
      * rewrite Forall_lookup in Hall. specialize (Hall _ _ Hlook). contradiction.
      * destruct (Nat.lt_ge_cases (Z.to_nat n) k) as [Hlt|Hge]; [|lia].
        specialize (Hfirst _ _ Hlt Hlook). contradiction.
  - intros Hout. unfold FoodManager.UpdateFood, FoodManager.GetType.
    rewrite at_out_of_range by exact Hout. split; reflexivity.
Qed.

Lemma UpdateFood_relocates_witness :
  (exists foods',
     FoodManager.UpdateFood 1 11 15 Food.kCut FoodManager.new = Ok foods' /\
     length foods' = length FoodManager.new /\
     foods' !! Z.to_nat 1 =
       Some {| Food.type := Food.kCut; Food.pos := mkPoint 11 15;
               Food.counter := Food.MAX_COUNT |} /\
     FoodManager.GetType 1 foods' = Ok Food.kCut /\
     (forall j : nat, j <> Z.to_nat 1 -> foods' !! j = FoodManager.new !! j) /\
     0 <= FoodManager.CheckFood 11 15 foods' <= 1) /\
  (FoodManager.UpdateFood 2 11 15 Food.kCut FoodManager.new = Undefined /\
   FoodManager.GetType 2 FoodManager.new = Undefined).
Proof.
  split.
  - apply (proj1 (UpdateFood_relocates 1 11 15 Food.kCut FoodManager.new)).
    cbn. lia.
  - apply (proj2 (UpdateFood_relocates 2 11 15 Food.kCut FoodManager.new)).
    right. cbn. lia.
Defined.

(** X3.  The index [CheckFood] returns, when it is not -1, can be handed to
    [GetType] and [UpdateFood] without leaving the vector: the two return,
    [GetType] with the type of a food that is on the cell. *)
Theorem CheckFood_index_is_valid (x y x' y' : Z) (ty : Food.Type_) (foods : list Food.t) :
  FoodManager.CheckFood x y foods <> -1 ->
  exists (f : Food.t) (foods' : list Food.t),
    FoodManager.at_ foods (FoodManager.CheckFood x y foods) = Ok f /\
    Food.pos f = mkPoint x y /\
    FoodManager.GetType (FoodManager.CheckFood x y foods) foods = Ok (Food.type f) /\
    FoodManager.UpdateFood (FoodManager.CheckFood x y foods) x' y' ty foods = Ok foods'.
Proof.
  intros Hfound. unfold FoodManager.CheckFood in *.
  destruct (CheckFood_from_spec x y foods 0 ltac:(lia))
    as [[Hr _] | (k & f & Hr & Hk & Hf & _)]; [contradiction|].
  rewrite Hr. apply lookup_lt_Some in Hk as Hlt.
  assert (Hat : FoodManager.at_ foods (0 + Z.of_nat k) = Ok f).
  { apply at_in_range. replace (Z.to_nat (0 + Z.of_nat k)) with k by lia.
    split; [lia | exact Hk]. }
  exists f. eexists. split; [exact Hat|]. split; [exact Hf|]. split.
  - unfold FoodManager.GetType. rewrite Hat. reflexivity.
  - apply UpdateFood_ok. lia.
Qed.

Lemma CheckFood_index_is_valid_witness :
  exists (f : Food.t) (foods' : list Food.t),
    FoodManager.at_ [Food.new; Scenario.food_below]
      (FoodManager.CheckFood 11 20 [Food.new; Scenario.food_below]) = Ok f /\
    Food.pos f = mkPoint 11 20 /\
    FoodManager.GetType (FoodManager.CheckFood 11 20 [Food.new; Scenario.food_below])
      [Food.new; Scenario.food_below] = Ok (Food.type f) /\
    FoodManager.UpdateFood (FoodManager.CheckFood 11 20 [Food.new; Scenario.food_below])
      3 4 Food.kBoost [Food.new; Scenario.food_below] = Ok foods'.
Proof.
  apply (CheckFood_index_is_valid 11 20 3 4 Food.kBoost [Food.new; Scenario.food_below]).
  vm_compute. discriminate.
Defined.

Lemma FoodManager_Count_inv (foods : list Food.t) : forall foods' : list Food.t,
  FoodManager.Count foods = Ok foods' ->
  Forall2 (fun f f' => Food.Count f = Ok f') foods foods'.
Proof.
  induction foods as [|food rest IH]; intros foods' Hcount;
    cbn [FoodManager.Count] in Hcount.
  - inversion Hcount. constructor.
  - apply bind_Ok in Hcount. destruct Hcount as (food' & Hfood & Hcount).
    apply bind_Ok in Hcount. destruct Hcount as (rest' & Hrest & Hret).
    inversion Hret; subst. constructor; [exact Hfood | apply IH; exact Hrest].
Qed.

Lemma Food_Count_inv (f f' : Food.t) :
  Food.Count f = Ok f' ->
  Food.counter f' = Food.counter f - 1 /\ Food.pos f' = Food.pos f /\
  Food.type f' = (if Food.counter f - 1 <=? 0 then Food.kNormal else Food.type f).
Proof.
  unfold Food.Count. destruct (Z.eqb_spec (Food.counter f) INT_MIN); [discriminate|].
  intros H; inversion H; subst; cbn. repeat split.
Qed.

Lemma FoodManager_Count_ok (foods : list Food.t) :
  Forall (fun f => Food.counter f <> INT_MIN) foods ->
  exists foods', FoodManager.Count foods = Ok foods'.
Proof.
  induction 1 as [|food rest Hfood _ (rest' & IH)]; cbn [FoodManager.Count].
  - eexists; reflexivity.
  - unfold Food.Count. destruct (Z.eqb_spec (Food.counter food) INT_MIN); [contradiction|].
    cbn [bind]. rewrite IH. cbn [bind]. eexists; reflexivity.
Qed.

(** [CheckFood] reads the positions only. *)
Lemma CheckFood_from_pos (x y : Z) (foods : list Food.t) :
  forall (foods' : list Food.t) (i : Z),
    map Food.pos foods' = map Food.pos foods ->
    FoodManager.CheckFood_from i x y foods' = FoodManager.CheckFood_from i x y foods.
Proof.
  induction foods as [|food rest IH]; intros [|food' rest'] i Hpos;
    try discriminate Hpos; [reflexivity|].
  cbn [map] in Hpos. inversion Hpos as [[Hhead Htail]].
  cbn [FoodManager.CheckFood_from]. rewrite Hhead, (IH rest' (i + 1) Htail). reflexivity.
Qed.

(** X4.  [FoodManager::Count()] ages every food by one tick and moves none:
    unless a counter sits at the least [int], the call returns a vector of
    the same length with every counter one lower and every position as it
    was, so [CheckFood] answers as before; and every food whose new counter
    is 0 or below is [kNormal]. *)
Theorem FoodManager_Count_ages (foods : list Food.t) :
  Forall (fun f => Food.counter f <> INT_MIN) foods ->
  exists foods',
    FoodManager.Count foods = Ok foods' /\
    length foods' = length foods /\
    map Food.pos foods' = map Food.pos foods /\
    map Food.counter foods' = map (fun f => Food.counter f - 1) foods /\
    (forall x y, FoodManager.CheckFood x y foods' = FoodManager.CheckFood x y foods) /\
    Forall (fun f' => Food.counter f' <= 0 -> Food.type f' = Food.kNormal) foods'.
Proof.
  intros Hcounters. destruct (FoodManager_Count_ok foods Hcounters) as (foods' & Hcount).
  exists foods'. split; [exact Hcount|].
  apply FoodManager_Count_inv in Hcount.
  assert (Hpos : map Food.pos foods' = map Food.pos foods).
  { induction Hcount as [|f f' rest rest' Hf _ IH]; [reflexivity|].
    apply Food_Count_inv in Hf. destruct Hf as (_ & Hp & _).
    cbn [map]. rewrite Hp, IH; [reflexivity|]. inversion Hcounters; assumption. }
  split; [symmetry; exact (Forall2_length _ _ _ Hcount)|].
  split; [exact Hpos|]. split; [|split].
  - clear Hpos Hcounters. induction Hcount as [|f f' rest rest' Hf _ IH]; [reflexivity|].
    apply Food_Count_inv in Hf. destruct Hf as (Hc & _).
    cbn [map]. rewrite Hc, IH. reflexivity.
  - intros x y. apply CheckFood_from_pos. exact Hpos.
  - clear Hpos Hcounters. induction Hcount as [|f f' rest rest' Hf _ IH]; constructor;
      [|exact IH].
    apply Food_Count_inv in Hf. destruct Hf as (Hc & _ & Ht).
    intros Hexpired. rewrite Ht.
    destruct (Z.leb_spec (Food.counter f - 1) 0); [reflexivity | lia].
Qed.

Lemma FoodManager_Count_ages_witness :
  exists foods',
    FoodManager.Count [Food.new; Scenario.food_below] = Ok foods' /\
    length foods' = length [Food.new; Scenario.food_below] /\
    map Food.pos foods' = map Food.pos [Food.new; Scenario.food_below] /\
    map Food.counter foods'
      = map (fun f => Food.counter f - 1) [Food.new; Scenario.food_below] /\
    (forall x y, FoodManager.CheckFood x y foods'
                 = FoodManager.CheckFood x y [Food.new; Scenario.food_below]) /\
    Forall (fun f' => Food.counter f' <= 0 -> Food.type f' = Food.kNormal) foods'.
Proof.
  apply (FoodManager_Count_ages [Food.new; Scenario.food_below]).
  repeat constructor; vm_compute; discriminate.
Defined.

(** X5.  Every food the program holds has a counter of at most [MAX_COUNT],
    and is [kNormal] whenever its counter is 0 or below: an expired food
    never shows or acts as Boost or Cut. *)
Theorem Food_history_expired_Normal (f : Food.t) :
  Food_history f ->
  Food.counter f <= Food.MAX_COUNT /\
  (Food.counter f <= 0 -> Food.type f = Food.kNormal).
Proof.
  intros Hf. split; [exact (history_counter f Hf)|].
  induction Hf as [| x y ty f _ _ | f f' _ _ Hcount].
  - vm_compute. intros H. exfalso. apply H. reflexivity.
  - unfold Food.Update, Food.ResetCounter, Food.MAX_COUNT. cbn [Food.counter]. lia.
  - apply Food_Count_inv in Hcount. destruct Hcount as (Hc & _ & Ht).
    intros Hexpired. rewrite Ht.
    destruct (Z.leb_spec (Food.counter f - 1) 0); [reflexivity | lia].
Qed.

Lemma Food_history_expired_Normal_witness :
  Food.counter Scenario.food_below <= Food.MAX_COUNT /\
  (Food.counter Scenario.food_below <= 0 -> Food.type Scenario.food_below = Food.kNormal).
Proof.
  apply (Food_history_expired_Normal Scenario.food_below).
  apply hist_Food_Update, hist_Food.
Defined.

(** ** Snake: what one [Update] does to the body and to [alive] *)

(** The body, the flag [alive] and the untouched members after a call of
    [UpdateBody] that returns. *)
Lemma UpdateBody_body (cur prev : SDL_Point) (s s' : Snake.t) :
  Snake.UpdateBody cur prev s = Ok s' ->
  let grown := if Snake.growing s then 1 else 0 in
  let keep := if Snake.growing s then 0%nat else 1%nat in
  let cut := if Snake.cutting s then Z.min 3 (Snake.size s + grown) else 0 in
  Snake.body s' = drop (Z.to_nat cut) (drop keep (Snake.body s ++ [prev])) /\
  Snake.alive s' =
    Snake.alive s && negb (existsb (same_cell (pt_x cur) (pt_y cur)) (Snake.body s')) /\
  Snake.head_x s' = Snake.head_x s /\ Snake.head_y s' = Snake.head_y s /\
  Snake.direction s' = Snake.direction s /\ Snake.speed s' = Snake.speed s.
Proof.
  unfold Snake.UpdateBody, Snake.incr_size. members.
  destruct (Snake.growing s) eqn:Hg; members.
  - destruct (Z.eqb_spec (Snake.size s) INT_MAX); members; [discriminate|].
    destruct (Snake.cutting s) eqn:Hc; members.
    + destruct (Snake.erase_front _ _) as [b| |] eqn:He; members; try discriminate.
      apply erase_front_inv in He. destruct He as (_ & -> & _).
      intros H; inversion H; subst; clear H. cbn [drop].
      destruct (existsb _ _) eqn:Hhit; members; rewrite ?Hhit, ?andb_false_r, ?andb_true_r;
        repeat split.
    + intros H; inversion H; subst; clear H. cbn [drop Z.to_nat].
      destruct (existsb _ _) eqn:Hhit; members; rewrite ?Hhit, ?andb_false_r, ?andb_true_r;
        repeat split.
  - destruct (Snake.erase_front 1 _) as [b1| |] eqn:He1; members; try discriminate.
    apply erase_front_inv in He1. destruct He1 as (_ & -> & _).
    change (Z.to_nat 1) with 1%nat.
    destruct (Snake.cutting s) eqn:Hc; members.
    + destruct (Snake.erase_front _ _) as [b| |] eqn:He; members; try discriminate.
      apply erase_front_inv in He. destruct He as (_ & -> & _).
      rewrite Z.add_0_r.
      intros H; inversion H; subst; clear H.
      destruct (existsb _ _) eqn:Hhit; members; rewrite ?Hhit, ?andb_false_r, ?andb_true_r;
        repeat split.
    + intros H; inversion H; subst; clear H. cbn [Z.to_nat]. rewrite drop_0.
      destruct (existsb _ _) eqn:Hhit; members; rewrite ?Hhit, ?andb_false_r, ?andb_true_r;
        repeat split.
Qed.

Lemma UpdateHead_alive (s : Snake.t) : Snake.alive (Snake.UpdateHead s) = Snake.alive s.
Proof. unfold Snake.UpdateHead. destruct (Snake.direction s); reflexivity. Qed.

(** X6.  [Update] and [alive]: the snake is alive after the call exactly if
    it was alive before and did not enter a cell that is among the body
    cells left after the shift.  So a dead snake stays dead, and a snake can
    only die on a call that takes its head into a new cell. *)
Theorem Update_alive (s s' : Snake.t) :
  Snake.Update s = Ok s' ->
  Snake.head_cell s' = Snake.head_cell (Snake.UpdateHead s) /\
  Snake.alive s' =
    Snake.alive s &&
    negb (Snake.enters_new_cell s &&
          existsb (same_cell (pt_x (Snake.head_cell s')) (pt_y (Snake.head_cell s')))
                  (Snake.body s')) /\
  (Snake.alive s = false -> Snake.alive s' = false) /\
  (Snake.enters_new_cell s = false -> Snake.alive s' = Snake.alive s).
Proof.
  intros Hup.
  assert (Hmain :
    Snake.head_cell s' = Snake.head_cell (Snake.UpdateHead s) /\
    Snake.alive s' =
      Snake.alive s &&
      negb (Snake.enters_new_cell s &&
            existsb (same_cell (pt_x (Snake.head_cell s')) (pt_y (Snake.head_cell s')))
                    (Snake.body s'))).
  { destruct (Snake.enters_new_cell s) eqn:Hcell.
    - rewrite Update_new_cell in Hup by assumption.
      apply UpdateBody_body in Hup. cbv zeta in Hup.
      destruct Hup as (_ & Halive & Hx & Hy & _).
      assert (Hhead : Snake.head_cell s' = Snake.head_cell (Snake.UpdateHead s))
        by (unfold Snake.head_cell; rewrite Hx, Hy; reflexivity).
      split; [exact Hhead|].
      rewrite Halive, UpdateHead_alive, Hhead. reflexivity.
    - rewrite Update_same_cell in Hup by assumption. inversion Hup; subst.
      split; [reflexivity|]. rewrite UpdateHead_alive. cbn [andb negb].
      rewrite andb_true_r. reflexivity. }
  destruct Hmain as [Hhead Halive]. split; [exact Hhead|]. split; [exact Halive|].
  split.
  - intros Hdead. rewrite Halive, Hdead. reflexivity.
  - intros Hcell. rewrite Halive, Hcell. cbn [andb negb]. apply andb_true_r.
Qed.

Lemma Update_alive_witness :
  exists s',
    Snake.Update Scenario.player = Ok s' /\
    Snake.head_cell s' = Snake.head_cell (Snake.UpdateHead Scenario.player) /\
    Snake.alive s' =
      Snake.alive Scenario.player &&
      negb (Snake.enters_new_cell Scenario.player &&
            existsb (same_cell (pt_x (Snake.head_cell s')) (pt_y (Snake.head_cell s')))
                    (Snake.body s')) /\
    (Snake.alive Scenario.player = false -> Snake.alive s' = false) /\
    (Snake.enters_new_cell Scenario.player = false ->
     Snake.alive s' = Snake.alive Scenario.player).
Proof.
  eexists. split; [vm_compute; reflexivity|].
  apply (Update_alive Scenario.player). vm_compute. reflexivity.
Defined.

(** X7.  [Update] and the body.  A call that leaves the head in its cell
    leaves the body alone.  A call that enters a new cell appends the cell
    the head left, then drops the oldest cell unless the snake is growing,
    then drops the [min(3, size)] oldest cells if it is cutting. *)
Theorem Update_body (s s' : Snake.t) :
  Snake.Update s = Ok s' ->
  let grown := if Snake.growing s then 1 else 0 in
  let keep := if Snake.growing s then 0%nat else 1%nat in
  let cut := if Snake.cutting s then Z.min 3 (Snake.size s + grown) else 0 in
  Snake.body s' =
    if Snake.enters_new_cell s
    then drop (Z.to_nat cut) (drop keep (Snake.body s ++ [Snake.head_cell s]))
    else Snake.body s.
Proof.
  intros Hup. destruct (UpdateHead_frame s) as (Hsize & Hbody & Hg & Hc).
  destruct (Snake.enters_new_cell s) eqn:Hcell.
  - rewrite Update_new_cell in Hup by assumption.
    apply UpdateBody_body in Hup. cbv zeta in Hup. destruct Hup as (Hb & _).
    rewrite Hsize, Hbody, Hg, Hc in Hb. exact Hb.
  - rewrite Update_same_cell in Hup by assumption. inversion Hup; subst. exact Hbody.
Qed.

Lemma Update_body_witness :
  exists s',
    Snake.Update (Snake.GrowBody Scenario.player) = Ok s' /\
    Snake.body s' = [mkPoint 11 17; mkPoint 11 18; mkPoint 11 16].
Proof.
  eexists. split; [vm_compute; reflexivity|].
  rewrite (Update_body (Snake.GrowBody Scenario.player) _ ltac:(vm_compute; reflexivity)).
  vm_compute. reflexivity.
Defined.





(** ** Snake: the steps of [Navigate] *)

(** X9.  [NextPos] moves to one of the four neighbours of the cell, and the
    opposite heading leads back. *)
Theorem NextPos_neighbour (dir : Snake.Direction) (x y : Z) :
  let '(nx, ny) := Snake.NextPos dir x y in
  Z.abs (nx - x) + Z.abs (ny - y) = 1 /\
  Snake.NextPos (opposite dir) nx ny = (x, y).
Proof.
  destruct dir; cbn [Snake.NextPos opposite]; split; try lia; f_equal; lia.
Qed.

(** X10.  The heading [Navigate] picks for its target is the current one or
    a quarter turn from it, never the opposite. *)
Theorem Navigate_heading_never_reverses
  (direction : Snake.Direction) (x y : Z) (food : Food.t) :
  Snake.Navigate_heading direction x y food <> opposite direction.
Proof.
  unfold Snake.Navigate_heading.
  destruct direction; cbn [Snake.Direction_eqb opposite andb orb];
    rewrite ?andb_false_r; cbn [andb orb];
    repeat match goal with
      | |- context [if ?c then _ else _] => destruct c
      end; discriminate.
Qed.

(** X11.  [Navigate] keeps the current heading for its target exactly when
    the food lies strictly ahead along that heading. *)
Theorem Navigate_heading_kept_iff_ahead
  (direction : Snake.Direction) (x y : Z) (food : Food.t) :
  Snake.Navigate_heading direction x y food = direction <->
  strictly_ahead direction x y food.
Proof.
  unfold Snake.Navigate_heading, strictly_ahead.
  set (fx := pt_x (Food.pos food)). set (fy := pt_y (Food.pos food)).
  destruct direction; cbn [Snake.Direction_eqb andb orb];
    rewrite ?andb_false_r; cbn [andb orb];
    unfold Z.gtb;
    repeat match goal with
      | |- context [?a <? ?b] => destruct (Z.ltb_spec a b)
      | |- context [?a =? ?b] => destruct (Z.eqb_spec a b)
      | |- context [?a ?= ?b] => destruct (Z.compare_spec a b)
      end; cbn [andb orb]; split; intros; try discriminate; try reflexivity; lia.
Qed.

Lemma Navigate_avoid_kRight (probes : nat) (s : Snake.t) (x y : Z) :
  Snake.Navigate_avoid probes s x y Snake.kRight = Snake.kRight.
Proof.
  induction probes as [|k IH]; [reflexivity|].
  cbn [Snake.Navigate_avoid Snake.NextPos].
  destruct (Snake.SnakeCell (x + 1) y s); cbn [negb]; [|reflexivity].
  rewrite NextDirection_kRight. exact IH.
Qed.

(** The probing loop keeps a candidate whose cell is free and answers
    [kRight] for every other. *)
Lemma Navigate_avoid_result (probes : nat) (s : Snake.t) (x y : Z) (dir : Snake.Direction) :
  Snake.Navigate_avoid (S probes) s x y dir =
  if Snake.SnakeCell (fst (Snake.NextPos dir x y)) (snd (Snake.NextPos dir x y)) s
  then Snake.kRight else dir.
Proof.
  cbn [Snake.Navigate_avoid]. destruct (Snake.NextPos dir x y) as [nx ny]. cbn [fst snd].
  destruct (Snake.SnakeCell nx ny s); cbn [negb]; [|reflexivity].
  rewrite NextDirection_kRight. apply Navigate_avoid_kRight.
Qed.

(** X12.  What [Navigate] answers.  On an empty snapshot the call is
    undefined.  Otherwise it writes the heading only: the heading towards
    the target if the next cell that way is free of the snake itself, and
    [kRight] if it is not, whether or not the cell to the right is free. *)
Theorem Navigate_answer (foods : list Food.t) (s : Snake.t) :
  let x := pt_x (Snake.head_cell s) in
  let y := pt_y (Snake.head_cell s) in
  match foods with
  | [] => Snake.Navigate foods s = Undefined
  | _ :: _ =>
      exists food,
        FoodManager.at_ foods (Snake.Navigate_target s foods) = Ok food /\
        let towards := Snake.Navigate_heading (Snake.direction s) x y food in
        let next := Snake.NextPos towards x y in
        Snake.Navigate foods s =
          Ok (Snake.set_direction
                (if Snake.SnakeCell (fst next) (snd next) s then Snake.kRight else towards)
                s)
  end.
Proof.
  intros x y. destruct foods as [|f0 rest]; [reflexivity|].
  destruct (Navigate_target_in_range s (f0 :: rest)) as (food & Hfood); [discriminate|].
  exists food. split; [exact Hfood|]. intros towards next.
  unfold Snake.Navigate. rewrite Hfood. cbn [bind]. fold x y. fold towards.
  rewrite Navigate_avoid_result. reflexivity.
Qed.

(** X13.  The target of [Navigate] is a nearest food.  If some food is
    nearer to the head than [grid_width + grid_height], the target is a food
    of the snapshot that no other food beats; if none is, the target is
    index 0. *)
Theorem Navigate_target_nearest (s : Snake.t) (foods : list Food.t) :
  let x := pt_x (Snake.head_cell s) in
  let y := pt_y (Snake.head_cell s) in
  let target := Snake.Navigate_target s foods in
  (target = 0 /\
   Forall (fun f => Snake.grid_width s + Snake.grid_height s <= Snake.distance x y f) foods) \/
  (exists ft : Food.t,
     0 <= target /\ foods !! Z.to_nat target = Some ft /\
     Snake.distance x y ft < Snake.grid_width s + Snake.grid_height s /\
     Forall (fun f => Snake.distance x y ft <= Snake.distance x y f) foods).
Proof.
  intros x y target. subst target. unfold Snake.Navigate_target. fold x y.
  destruct (nearest_from_spec x y foods 0 (Snake.grid_width s + Snake.grid_height s) 0)
    as [[Hr Hall] | (k & fk & Hk & Hr & Hd & Hmin)]; rewrite Hr.
  - left. split; [reflexivity | exact Hall].
  - right. exists fk. replace (Z.to_nat (0 + Z.of_nat k)) with k by lia.
    split; [lia|]. split; [exact Hk|]. split; [exact Hd|].
    apply Forall_lookup. intros j fj Hj. apply (Hmin j fj Hj).
Qed.

(** ** Game: food placement *)

Lemma uniform_range (lo hi : Z) (r : nat) :
  lo <= hi -> lo <= Game.uniform lo hi r <= hi.
Proof.
  intros Hle. unfold Game.uniform.
  pose proof (Z.mod_pos_bound (Z.of_nat r) (hi - lo + 1) ltac:(lia)). lia.
Qed.

(** What a call of [PlaceFood] that returns has done. *)
Lemma PlaceFood_loop_post (index : Z) (g g' : Game.t) (tape : list nat) :
  Game.PlaceFood_loop index g tape = Ok g' ->
  exists (rx ry : nat) (type : Food.Type_) (rest : list nat),
    let x := Game.random_w g rx in
    let y := Game.random_h g ry in
    Snake.SnakeCell x y (Game.snake g) = false /\
    Snake.SnakeCell x y (Game.enemy g) = false /\
    FoodManager.UpdateFood index x y type (Game.food_manager g)
      = Ok (Game.food_manager g') /\
    g' = Game.set_engine rest (Game.set_food_manager (Game.food_manager g') g) /\
    (length rest + 3 <= length tape)%nat.
Proof.
  enough (Hboth :
    forall tape0, (tape0 = tape \/ exists r, tape0 = r :: tape) ->
      Game.PlaceFood_loop index g tape0 = Ok g' ->
      exists (rx ry : nat) (type : Food.Type_) (rest : list nat),
        let x := Game.random_w g rx in
        let y := Game.random_h g ry in
        Snake.SnakeCell x y (Game.snake g) = false /\
        Snake.SnakeCell x y (Game.enemy g) = false /\
        FoodManager.UpdateFood index x y type (Game.food_manager g)
          = Ok (Game.food_manager g') /\
        g' = Game.set_engine rest (Game.set_food_manager (Game.food_manager g') g) /\
        (length rest + 3 <= length tape0)%nat)
    by (apply Hboth; left; reflexivity).
  induction tape as [|ry tape' IH]; intros tape0 [-> | (rx & ->)];
    try discriminate.
  - apply IH. right. exists ry. reflexivity.
  - cbn [Game.PlaceFood_loop].
    destruct (negb (Snake.SnakeCell _ _ (Game.snake g))) eqn:Hs;
      [destruct (negb (Snake.SnakeCell _ _ (Game.enemy g))) eqn:He|]; cbn [andb].
    + destruct tape' as [|rn tape'']; [discriminate|].
      intros Hplace. apply bind_Ok in Hplace. destruct Hplace as (fm & Hfm & Hret).
      inversion Hret; subst g'; clear Hret.
      apply negb_true_iff in Hs, He.
      eexists rx, ry, _, tape''. cbv zeta.
      cbn [Game.food_manager Game.set_engine Game.set_food_manager].
      split; [exact Hs|]. split; [exact He|]. split; [exact Hfm|].
      split; [reflexivity | cbn [length]; lia].
    + intros Hplace.
      destruct (IH tape' (or_introl eq_refl) Hplace)
        as (rx' & ry' & ty & rest & H1 & H2 & H3 & H4 & H5).
      exists rx', ry', ty, rest. cbv zeta. repeat split; try assumption.
      cbn [length]. lia.
    + intros Hplace.
      destruct (IH tape' (or_introl eq_refl) Hplace)
        as (rx' & ry' & ty & rest & H1 & H2 & H3 & H4 & H5).
      exists rx', ry', ty, rest. cbv zeta. repeat split; try assumption.
      cbn [length]. lia.
Qed.

Lemma UpdateFood_inv (n x y : Z) (ty : Food.Type_) (foods foods' : list Food.t) :
  FoodManager.UpdateFood n x y ty foods = Ok foods' ->
  0 <= n < Z.of_nat (length foods) /\
  foods' = <[Z.to_nat n :=
              {| Food.type := ty; Food.pos := mkPoint x y; Food.counter := Food.MAX_COUNT |}]>
             foods.
Proof.
  intros Hup. unfold FoodManager.UpdateFood in Hup.
  apply bind_Ok in Hup. destruct Hup as (f & Hat & Hret).
  apply at_in_range in Hat. destruct Hat as [Hn _].
  inversion Hret. split; [exact Hn | reflexivity].
Qed.

(** X14.  [PlaceFood(index)], when it returns on a grid of positive width
    and height, has relocated the food of that slot, and that one only, to a
    cell of the grid that neither snake occupies, with a fresh counter; the
    snakes and the scores are untouched, and at least three numbers of the
    engine are used up.  The slot is a slot of the vector. *)
Theorem PlaceFood_places_free (index : Z) (g g' : Game.t) :
  Game.PlaceFood index g = Ok g' ->
  0 < Game.grid_width_ g -> 0 < Game.grid_height_ g ->
  exists food : Food.t,
    0 <= index < Z.of_nat (length (Game.food_manager g)) /\
    Game.food_manager g' = <[Z.to_nat index := food]> (Game.food_manager g) /\
    placed_free g food /\ Food.counter food = Food.MAX_COUNT /\
    Game.snake g' = Game.snake g /\ Game.enemy g' = Game.enemy g /\
    Game.scores g' = Game.scores g /\
    (length (Game.engine g') + 3 <= length (Game.engine g))%nat.
Proof.
  unfold Game.PlaceFood. intros Hplace Hw Hh.
  apply PlaceFood_loop_post in Hplace. cbv zeta in Hplace.
  destruct Hplace as (rx & ry & ty & rest & Hs & He & Hfm & Hg' & Hlen).
  apply UpdateFood_inv in Hfm. destruct Hfm as [Hidx Hfm].
  eexists. split; [exact Hidx|]. split; [exact Hfm|].
  rewrite Hg'. cbn [Game.snake Game.enemy Game.scores Game.engine
                    Game.set_engine Game.set_food_manager].
  split; [|repeat split; exact Hlen].
  unfold placed_free. cbn [Food.pos pt_x pt_y].
  unfold Game.random_w, Game.random_h in *.
  pose proof (uniform_range 0 (Game.grid_width_ g - 1) rx ltac:(lia)).
  pose proof (uniform_range 0 (Game.grid_height_ g - 1) ry ltac:(lia)).
  repeat split; try assumption; lia.
Qed.

Lemma PlaceFood_places_free_witness :
  exists (g g' : Game.t) (food : Food.t),
    Scenario.game Scenario.seed_turn = Ok g /\
    Game.PlaceFood 0 g = Ok g' /\
    0 <= 0 < Z.of_nat (length (Game.food_manager g)) /\
    Game.food_manager g' = <[Z.to_nat 0 := food]> (Game.food_manager g) /\
    placed_free g food /\ Food.counter food = Food.MAX_COUNT /\
    Game.snake g' = Game.snake g /\ Game.enemy g' = Game.enemy g /\
    Game.scores g' = Game.scores g /\
    (length (Game.engine g') + 3 <= length (Game.engine g))%nat.
Proof.
  eexists. eexists.
  match goal with |- exists food, ?A /\ ?B /\ ?C =>
    enough (Hrun : A /\ B /\ exists food, C)
      by (destruct Hrun as (Ha & Hb & food & Hc); exists food; auto)
  end.
  split; [vm_compute; reflexivity|]. split; [vm_compute; reflexivity|].
  eapply PlaceFood_places_free; vm_compute; reflexivity.
Defined.

(** X15.  A game that has been constructed on a grid of positive width and
    height holds two foods, both on cells of the grid that neither snake
    occupies, both with a full counter; an empty tape of random numbers
    cannot construct it. *)
Theorem new_places_foods (gw gh : Z) (seed : list nat) (g : Game.t) :
  Game.new gw gh seed = Ok g -> 0 < gw -> 0 < gh ->
  length (Game.food_manager g) = 2%nat /\
  Forall (placed_free g) (Game.food_manager g) /\
  Forall (fun f => Food.counter f = Food.MAX_COUNT) (Game.food_manager g) /\
  (length (Game.engine g) + 6 <= length seed)%nat.
Proof.
  unfold Game.new. intros Hnew Hw Hh.
  apply bind_Ok in Hnew. destruct Hnew as (snake & _ & Hnew).
  apply bind_Ok in Hnew. destruct Hnew as (enemy & _ & Hnew).
  change (Z.to_nat FoodManager.target_food_number) with 2%nat in Hnew.
  cbn [Game.PlaceFood_each] in Hnew.
  apply bind_Ok in Hnew. destruct Hnew as (g1 & Hfirst & Hnew).
  apply bind_Ok in Hnew. destruct Hnew as (g2 & Hsecond & Hret).
  inversion Hret; subst g2; clear Hret.
  pose proof Hfirst as Hpost1. pose proof Hsecond as Hpost2.
  unfold Game.PlaceFood in Hpost1, Hpost2.
  apply PlaceFood_loop_post in Hpost1, Hpost2. cbv zeta in Hpost1, Hpost2.
  destruct Hpost1 as (_ & _ & _ & rest1 & _ & _ & _ & Hg1 & _).
  destruct Hpost2 as (_ & _ & _ & rest2 & _ & _ & _ & Hg & _).
  assert (Hgrid1 : Game.grid_width_ g1 = gw /\ Game.grid_height_ g1 = gh)
    by (rewrite Hg1; split; reflexivity).
  destruct Hgrid1 as [Hw1 Hh1].
  apply PlaceFood_places_free in Hfirst; [|cbn [Game.grid_width_ Game.grid_height_]; lia..].
  apply PlaceFood_places_free in Hsecond; [|lia..].
  destruct Hfirst as (f0 & _ & Hfm1 & Hfree0 & Hc0 & Hs1 & He1 & _ & Hlen1).
  destruct Hsecond as (f1 & _ & Hfm2 & Hfree1 & Hc1 & Hs2 & He2 & _ & Hlen2).
  rewrite Hfm1 in Hfm2. cbn in Hfm2. cbn [Game.engine] in Hlen1.
  assert (Hgrid : Game.grid_width_ g = Game.grid_width_ g1 /\
                  Game.grid_height_ g = Game.grid_height_ g1)
    by (rewrite Hg; split; reflexivity).
  destruct Hgrid as [Hwg Hhg].
  rewrite Hfm2. split; [reflexivity|]. split; [|split; [repeat constructor; assumption | lia]].
  unfold placed_free in *. rewrite Hwg, Hhg, Hs2, He2.
  constructor; [|constructor; [exact Hfree1 | constructor]].
  rewrite Hw1, Hh1, Hs1, He1. exact Hfree0.
Qed.

Lemma new_places_foods_witness :
  exists g,
    Scenario.game Scenario.seed_turn = Ok g /\
    length (Game.food_manager g) = 2%nat /\
    Forall (placed_free g) (Game.food_manager g) /\
    Forall (fun f => Food.counter f = Food.MAX_COUNT) (Game.food_manager g) /\
    (length (Game.engine g) + 6 <= length Scenario.seed_turn)%nat.
Proof.
  eexists. split; [vm_compute; reflexivity|].
  apply (new_places_foods 32 32 Scenario.seed_turn); vm_compute; reflexivity.
Defined.

(** ** Game: one update of a running game *)

Lemma eat_points (type : Food.Type_) (s : Snake.t) :
  snd (Game.eat type s) = 1 \/ snd (Game.eat type s) = 3.
Proof. destruct type; cbn; auto. Qed.

(** [eat] asks for growth, and for a cut on a Cut food; the body, the size,
    the head, the heading and [alive] are left to the next [Update]. *)
Lemma eat_defers (type : Food.Type_) (s : Snake.t) :
  let s' := fst (Game.eat type s) in
  Snake.body s' = Snake.body s /\ Snake.size s' = Snake.size s /\
  Snake.head_x s' = Snake.head_x s /\ Snake.head_y s' = Snake.head_y s /\
  Snake.alive s' = Snake.alive s /\ Snake.direction s' = Snake.direction s /\
  Snake.growing s' = true /\
  Snake.cutting s' =
    match type with Food.kCut => true | _ => Snake.cutting s end.
Proof.
  destruct type; cbn [Game.eat fst]; unfold Game.speed_up, Snake.GrowBody, Snake.CutBody;
    try destruct (Fp.flt _ _); members; repeat split.
Qed.

Lemma PlaceFood_frame (index : Z) (g g' : Game.t) :
  Game.PlaceFood index g = Ok g' ->
  Game.snake g' = Game.snake g /\ Game.enemy g' = Game.enemy g /\
  Game.scores g' = Game.scores g /\
  length (Game.food_manager g') = length (Game.food_manager g) /\
  Game.grid_width_ g' = Game.grid_width_ g /\
  Game.grid_height_ g' = Game.grid_height_ g.
Proof.
  unfold Game.PlaceFood. intros Hplace.
  apply PlaceFood_loop_post in Hplace. cbv zeta in Hplace.
  destruct Hplace as (rx & ry & ty & rest & _ & _ & Hfm & Hg' & _).
  apply UpdateFood_inv in Hfm. destruct Hfm as [_ Hfm].
  rewrite Hg'. cbn [Game.snake Game.enemy Game.scores Game.food_manager
                    Game.grid_width_ Game.grid_height_
                    Game.set_engine Game.set_food_manager].
  rewrite Hfm, length_insert. repeat split.
Qed.

(** The food check of [Game::Update] for the player. *)
Lemma feed_player (index : Z) (g ga : Game.t) :
  (if negb (index =? -1) then
     do type <- FoodManager.GetType index (Game.food_manager g);
     let '(s, points) := Game.eat type (Game.snake g) in
     do g' <- Game.add_score 0 points (Game.set_snake s g);
     Game.PlaceFood index g'
   else Ok g) = Ok ga ->
  exists points,
    fed (Game.snake g) (Game.snake ga) points /\
    Game.enemy ga = Game.enemy g /\
    Game.scores ga = alter (fun v => v + points) 0%nat (Game.scores g) /\
    same_shape g ga.
Proof.
  destruct (Z.eqb_spec index (-1)) as [->|Hidx]; cbn [negb].
  - intros H; inversion H; subst ga. exists 0. split; [left; auto|].
    split; [reflexivity|]. split; [|repeat split].
    destruct (Game.scores g) as [|a rest]; [reflexivity|]. cbn. rewrite Z.add_0_r.
    reflexivity.
  - intros H. apply bind_Ok in H. destruct H as (ty & _ & H).
    destruct (Game.eat ty (Game.snake g)) as [s points] eqn:Heat.
    apply bind_Ok in H. destruct H as (g' & Hscore & Hplace).
    unfold Game.add_score in Hscore. cbn [Game.scores Game.set_snake] in Hscore.
    destruct (Game.scores g !! 0%nat) as [v|] eqn:Hv; [|discriminate].
    inversion Hscore; subst g'; clear Hscore.
    apply PlaceFood_frame in Hplace.
    cbn [Game.snake Game.enemy Game.scores Game.food_manager Game.grid_width_
         Game.grid_height_ Game.set_scores Game.set_snake] in Hplace.
    destruct Hplace as (Hs & He & Hsc & Hfm & Hw & Hh).
    exists points. split; [right; exists ty; rewrite Hs; exact Heat|].
    split; [exact He|].
    destruct (Game.scores g) as [|a rest] eqn:Hscores; [discriminate|].
    cbn in Hv. inversion Hv; subst v. cbn in Hsc.
    split; [rewrite Hsc; reflexivity|].
    unfold same_shape. rewrite Hsc, Hscores, Hfm, Hw, Hh. repeat split.
Qed.

(** The food check of [Game::Update] for the enemy. *)
Lemma feed_enemy (index : Z) (g ga : Game.t) :
  (if negb (index =? -1) then
     do type <- FoodManager.GetType index (Game.food_manager g);
     let '(e, points) := Game.eat type (Game.enemy g) in
     do g' <- Game.add_score 1 points (Game.set_enemy e g);
     Game.PlaceFood index g'
   else Ok g) = Ok ga ->
  exists points,
    fed (Game.enemy g) (Game.enemy ga) points /\
    Game.snake ga = Game.snake g /\
    Game.scores ga = alter (fun v => v + points) 1%nat (Game.scores g) /\
    same_shape g ga.
Proof.
  destruct (Z.eqb_spec index (-1)) as [->|Hidx]; cbn [negb].
  - intros H; inversion H; subst ga. exists 0. split; [left; auto|].
    split; [reflexivity|]. split; [|repeat split].
    destruct (Game.scores g) as [|a [|b rest]]; try reflexivity. cbn.
    rewrite Z.add_0_r. reflexivity.
  - intros H. apply bind_Ok in H. destruct H as (ty & _ & H).
    destruct (Game.eat ty (Game.enemy g)) as [e points] eqn:Heat.
    apply bind_Ok in H. destruct H as (g' & Hscore & Hplace).
    unfold Game.add_score in Hscore. cbn [Game.scores Game.set_enemy] in Hscore.
    destruct (Game.scores g !! 1%nat) as [v|] eqn:Hv; [|discriminate].
    inversion Hscore; subst g'; clear Hscore.
    apply PlaceFood_frame in Hplace.
    cbn [Game.snake Game.enemy Game.scores Game.food_manager Game.grid_width_
         Game.grid_height_ Game.set_scores Game.set_enemy] in Hplace.
    destruct Hplace as (Hs & He & Hsc & Hfm & Hw & Hh).
    exists points. split; [right; exists ty; rewrite He; exact Heat|].
    split; [exact Hs|].
    destruct (Game.scores g) as [|a [|b rest]] eqn:Hscores; try discriminate.
    cbn in Hv. inversion Hv; subst v. cbn in Hsc.
    split; [rewrite Hsc; reflexivity|].
    unfold same_shape. rewrite Hsc, Hscores, Hfm, Hw, Hh. repeat split.
Qed.

(** A call of [Game::Update] on two live snakes, step by step. *)
Lemma Update_running_inv (g g' : Game.t) :
  Game.Update g = Ok g' ->
  Snake.alive (Game.snake g) = true -> Snake.alive (Game.enemy g) = true ->
  exists (s1 e1 : Snake.t) (ps pe : Z),
    Snake.Update (Game.snake g) = Ok s1 /\ Snake.Update (Game.enemy g) = Ok e1 /\
    fed s1 (Game.snake g') ps /\ fed e1 (Game.enemy g') pe /\
    Game.scores g' =
      alter (fun v => v + pe) 1%nat (alter (fun v => v + ps) 0%nat (Game.scores g)) /\
    same_shape g g'.
Proof.
  unfold Game.Update. intros Hup Hs He. rewrite Hs, He in Hup. cbn [negb orb] in Hup.
  apply bind_Ok in Hup. destruct Hup as (s1 & Hs1 & Hup).
  apply bind_Ok in Hup. destruct Hup as (e1 & He1 & Hup).
  apply bind_Ok in Hup. destruct Hup as (fm & Hfm & Hup).
  apply bind_Ok in Hup. destruct Hup as (ga & Hplayer & Henemy).
  cbn [Game.enemy Game.set_snake] in He1.
  cbn [Game.food_manager Game.set_snake Game.set_enemy] in Hfm.
  apply FoodManager_Count_inv, Forall2_length in Hfm.
  apply feed_player in Hplayer. destruct Hplayer as (ps & Hfed_s & Hen & Hsc & Hshape).
  apply feed_enemy in Henemy. destruct Henemy as (pe & Hfed_e & Hsn & Hsc' & Hshape').
  cbn [Game.snake Game.enemy Game.scores Game.set_snake Game.set_enemy
       Game.set_food_manager] in Hfed_s, Hen, Hsc.
  exists s1, e1, ps, pe. split; [exact Hs1|]. split; [exact He1|].
  split; [rewrite Hsn; exact Hfed_s|]. split; [rewrite <- Hen; exact Hfed_e|].
  split; [rewrite Hsc', Hsc; reflexivity|].
  unfold same_shape in *.
  cbn [Game.scores Game.food_manager Game.grid_width_ Game.grid_height_
       Game.set_snake Game.set_enemy Game.set_food_manager] in Hshape.
  destruct Hshape as (H1 & H2 & H3 & H4). destruct Hshape' as (H1' & H2' & H3' & H4').
  repeat split; congruence.
Qed.

Lemma fed_defers (s s' : Snake.t) (points : Z) :
  fed s s' points ->
  Snake.body s' = Snake.body s /\ Snake.size s' = Snake.size s /\
  Snake.head_x s' = Snake.head_x s /\ Snake.head_y s' = Snake.head_y s /\
  Snake.alive s' = Snake.alive s /\ Snake.direction s' = Snake.direction s /\
  (points = 0 \/ (Snake.growing s' = true /\ (points = 1 \/ points = 3))).
Proof.
  intros [[-> ->] | (ty & Heat)]; [repeat split; left; reflexivity|].
  pose proof (eat_defers ty s) as Hd. pose proof (eat_points ty s) as Hp.
  rewrite Heat in Hd, Hp. cbn [fst snd] in Hd, Hp. cbv zeta in Hd.
  destruct Hd as (Hb & Hs & Hx & Hy & Ha & Hdir & Hg & _).
  repeat split; try assumption. right. split; assumption.
Qed.

(** X16.  Eating is deferred.  After a call of [Game::Update] on two live
    snakes, each snake's body, size, head, heading and [alive] are exactly
    what its own [Snake::Update] of this tick produced, also when it has just
    eaten: a food shows in the body only at the next change of cell. *)
Theorem Game_Update_defers_growth (g g' : Game.t) :
  Game.Update g = Ok g' ->
  Snake.alive (Game.snake g) = true -> Snake.alive (Game.enemy g) = true ->
  exists s1 e1 : Snake.t,
    Snake.Update (Game.snake g) = Ok s1 /\ Snake.Update (Game.enemy g) = Ok e1 /\
    (Snake.body (Game.snake g') = Snake.body s1 /\
     Snake.size (Game.snake g') = Snake.size s1 /\
     Snake.head_cell (Game.snake g') = Snake.head_cell s1 /\
     Snake.direction (Game.snake g') = Snake.direction s1 /\
     Snake.alive (Game.snake g') = Snake.alive s1) /\
    (Snake.body (Game.enemy g') = Snake.body e1 /\
     Snake.size (Game.enemy g') = Snake.size e1 /\
     Snake.head_cell (Game.enemy g') = Snake.head_cell e1 /\
     Snake.direction (Game.enemy g') = Snake.direction e1 /\
     Snake.alive (Game.enemy g') = Snake.alive e1).
Proof.
  intros Hup Hs He.
  destruct (Update_running_inv g g' Hup Hs He)
    as (s1 & e1 & ps & pe & Hs1 & He1 & Hfs & Hfe & _).
  apply fed_defers in Hfs, Hfe.
  destruct Hfs as (Hb & Hsz & Hx & Hy & Ha & Hd & _).
  destruct Hfe as (Hb' & Hsz' & Hx' & Hy' & Ha' & Hd' & _).
  exists s1, e1. split; [exact Hs1|]. split; [exact He1|].
  unfold Snake.head_cell. rewrite Hx, Hy, Hx', Hy'. repeat split; assumption.
Qed.

(** X17.  Scores per update.  A call of [Game::Update] adds 0, 1 or 3 to each
    of the two scores and nothing else; a snake that scored has [growing]
    set.  The number of scores and of foods and the grid stay the same. *)
Theorem Game_Update_scores (g g' : Game.t) (a b : Z) :
  Game.Update g = Ok g' -> Game.scores g = [a; b] ->
  exists ps pe : Z,
    Game.scores g' = [a + ps; b + pe] /\
    (ps = 0 \/ (Snake.growing (Game.snake g') = true /\ (ps = 1 \/ ps = 3))) /\
    (pe = 0 \/ (Snake.growing (Game.enemy g') = true /\ (pe = 1 \/ pe = 3))) /\
    same_shape g g'.
Proof.
  intros Hup Hsc.
  destruct (Snake.alive (Game.snake g)) eqn:Hs;
    [destruct (Snake.alive (Game.enemy g)) eqn:He|].
  - destruct (Update_running_inv g g' Hup Hs He)
      as (s1 & e1 & ps & pe & _ & _ & Hfs & Hfe & Hsc' & Hshape).
    apply fed_defers in Hfs, Hfe.
    exists ps, pe. rewrite Hsc', Hsc. split; [reflexivity|].
    split; [apply Hfs|]. split; [apply Hfe | exact Hshape].
  - unfold Game.Update in Hup. rewrite Hs, He in Hup. inversion Hup; subst g'.
    exists 0, 0. rewrite Hsc, !Z.add_0_r. repeat split; auto.
  - unfold Game.Update in Hup. rewrite Hs in Hup. inversion Hup; subst g'.
    exists 0, 0. rewrite Hsc, !Z.add_0_r. repeat split; auto.
Qed.

Lemma Game_Update_defers_growth_witness :
  exists g g' s1 e1,
    Scenario.game Scenario.seed_boosts = Ok g /\ Game.Update g = Ok g' /\
    Snake.Update (Game.snake g) = Ok s1 /\ Snake.Update (Game.enemy g) = Ok e1 /\
    (Snake.body (Game.snake g') = Snake.body s1 /\
     Snake.size (Game.snake g') = Snake.size s1 /\
     Snake.head_cell (Game.snake g') = Snake.head_cell s1 /\
     Snake.direction (Game.snake g') = Snake.direction s1 /\
     Snake.alive (Game.snake g') = Snake.alive s1) /\
    (Snake.body (Game.enemy g') = Snake.body e1 /\
     Snake.size (Game.enemy g') = Snake.size e1 /\
     Snake.head_cell (Game.enemy g') = Snake.head_cell e1 /\
     Snake.direction (Game.enemy g') = Snake.direction e1 /\
     Snake.alive (Game.enemy g') = Snake.alive e1).
Proof.
  eexists. eexists.
  match goal with |- exists s1 e1, ?A /\ ?B /\ @?C s1 e1 =>
    enough (Hrun : A /\ B /\ exists s1 e1, C s1 e1)
      by (destruct Hrun as (Ha & Hb & s1 & e1 & Hc); exists s1, e1; auto)
  end.
  split; [vm_compute; reflexivity|]. split; [vm_compute; reflexivity|].
  cbv beta. eapply Game_Update_defers_growth; vm_compute; reflexivity.
Defined.

Lemma Game_Update_scores_witness :
  exists g g' ps pe,
    Scenario.game Scenario.seed_boosts = Ok g /\ Game.Update g = Ok g' /\
    Game.scores g' = [0 + ps; 1 + pe] /\
    (ps = 0 \/ (Snake.growing (Game.snake g') = true /\ (ps = 1 \/ ps = 3))) /\
    (pe = 0 \/ (Snake.growing (Game.enemy g') = true /\ (pe = 1 \/ pe = 3))) /\
    same_shape g g'.
Proof.
  eexists. eexists.
  match goal with |- exists ps pe, ?A /\ ?B /\ @?C ps pe =>
    enough (Hrun : A /\ B /\ exists ps pe, C ps pe)
      by (destruct Hrun as (Ha & Hb & ps & pe & Hc); exists ps, pe; auto)
  end.
  split; [vm_compute; reflexivity|]. split; [vm_compute; reflexivity|].
  cbv beta. eapply Game_Update_scores; vm_compute; reflexivity.
Defined.

(** ** Game: whole runs *)

Lemma Navigate_inv (foods : list Food.t) (s s' : Snake.t) :
  Snake.Navigate foods s = Ok s' -> exists d, s' = Snake.set_direction d s.
Proof.
  unfold Snake.Navigate. intros H. apply bind_Ok in H. destruct H as (food & _ & H).
  inversion H. eexists; reflexivity.
Qed.

(** One iteration of [Game::Run] is one [Game::Update] of the game with the
    two headings set. *)
Lemma Run_iteration_inv (input : option Snake.Direction) (g g' : Game.t) :
  Game.Run_iteration input g = Ok g' ->
  exists g1, same_but_headings g g1 /\ Game.Update g1 = Ok g'.
Proof.
  unfold Game.Run_iteration. intros H. apply bind_Ok in H. destruct H as (e & Hnav & Hup).
  cbn [Game.food_manager Game.enemy Game.set_snake FoodManager.GetFoods] in Hnav.
  apply Navigate_inv in Hnav. destruct Hnav as (d_enemy & ->).
  destruct (HandleInput_heading input (Game.snake g)) as (d_snake & Hin).
  rewrite Hin in Hup. eexists. split; [|exact Hup].
  exists d_snake, d_enemy. reflexivity.
Qed.

Lemma same_but_headings_trans (g1 g2 g3 : Game.t) :
  same_but_headings g1 g2 -> same_but_headings g2 g3 -> same_but_headings g1 g3.
Proof.
  intros (d1 & e1 & ->) (d2 & e2 & ->). exists d2, e2. reflexivity.
Qed.

Lemma same_but_headings_refl (g : Game.t) : same_but_headings g g.
Proof.
  exists (Snake.direction (Game.snake g)), (Snake.direction (Game.enemy g)).
  destruct g as [[] [] ? ? ? ? ?]. reflexivity.
Qed.

(** X18.  A game with a dead snake stays frozen for good: whatever keys are
    pressed and however many ticks pass, [Game::Run] changes nothing but the
    two headings, so neither snake moves, grows or comes back to life, no
    food ages or moves and the scores stand. *)
Theorem dead_game_stays_frozen (inputs : list (option Snake.Direction)) :
  forall g g' : Game.t,
    Snake.alive (Game.snake g) = false \/ Snake.alive (Game.enemy g) = false ->
    Game.Run inputs g = Ok g' ->
    same_but_headings g g' /\
    Snake.alive (Game.snake g') = Snake.alive (Game.snake g) /\
    Snake.alive (Game.enemy g') = Snake.alive (Game.enemy g) /\
    Game.scores g' = Game.scores g /\
    Game.food_manager g' = Game.food_manager g.
Proof.
  enough (Hfrozen : forall g g' : Game.t,
             Snake.alive (Game.snake g) = false \/ Snake.alive (Game.enemy g) = false ->
             Game.Run inputs g = Ok g' -> same_but_headings g g').
  { intros g g' Hdead Hrun. pose proof (Hfrozen g g' Hdead Hrun) as Hsame.
    split; [exact Hsame|]. destruct Hsame as (d & e & ->). repeat split. }
  induction inputs as [|input rest IH]; intros g g' Hdead Hrun; cbn [Game.Run] in Hrun.
  - inversion Hrun; subst. apply same_but_headings_refl.
  - apply bind_Ok in Hrun. destruct Hrun as (g2 & Hiter & Hrest).
    apply Run_iteration_inv in Hiter. destruct Hiter as (g1 & Hsame & Hup).
    assert (Hdead1 : Snake.alive (Game.snake g1) = false \/
                     Snake.alive (Game.enemy g1) = false)
      by (destruct Hsame as (d & e & ->); exact Hdead).
    assert (g2 = g1).
    { unfold Game.Update in Hup.
      destruct Hdead1 as [Hd | Hd]; rewrite Hd in Hup; cbn [negb orb] in Hup;
        rewrite ?orb_true_r in Hup; inversion Hup; reflexivity. }
    subst g2. apply (same_but_headings_trans g g1 g'); [exact Hsame|].
    apply IH; assumption.
Qed.

Lemma dead_game_stays_frozen_witness :
  exists g g',
    (do g0 <- Scenario.game Scenario.seed_turn; Game.Run Scenario.keys_turn g0) = Ok g /\
    Game.Run [None; Some Snake.kUp; None] g = Ok g' /\
    same_but_headings g g' /\
    Snake.alive (Game.snake g') = Snake.alive (Game.snake g) /\
    Snake.alive (Game.enemy g') = Snake.alive (Game.enemy g) /\
    Game.scores g' = Game.scores g /\
    Game.food_manager g' = Game.food_manager g.
Proof.
  eexists. eexists. split; [vm_compute; reflexivity|].
  split; [vm_compute; reflexivity|].
  apply (dead_game_stays_frozen [None; Some Snake.kUp; None]).
  - left. vm_compute. reflexivity.
  - vm_compute. reflexivity.
Defined.

Lemma Update_scores_step (g g' : Game.t) (a b : Z) :
  Game.Update g = Ok g' -> Game.scores g = [a; b] ->
  exists ps pe : Z,
    Game.scores g' = [a + ps; b + pe] /\ 0 <= ps <= 3 /\ 0 <= pe <= 3.
Proof.
  intros Hup Hsc.
  destruct (Snake.alive (Game.snake g)) eqn:Hs;
    [destruct (Snake.alive (Game.enemy g)) eqn:He|].
  - destruct (Update_running_inv g g' Hup Hs He)
      as (s1 & e1 & ps & pe & _ & _ & Hfs & Hfe & Hsc' & _).
    apply fed_defers in Hfs, Hfe.
    destruct Hfs as (_ & _ & _ & _ & _ & _ & Hps).
    destruct Hfe as (_ & _ & _ & _ & _ & _ & Hpe).
    exists ps, pe. rewrite Hsc', Hsc. split; [reflexivity|]. lia.
  - unfold Game.Update in Hup. rewrite Hs, He in Hup. inversion Hup; subst g'.
    exists 0, 0. rewrite Hsc, !Z.add_0_r. repeat split; lia.
  - unfold Game.Update in Hup. rewrite Hs in Hup. inversion Hup; subst g'.
    exists 0, 0. rewrite Hsc, !Z.add_0_r. repeat split; lia.
Qed.

Lemma Run_scores_bounds (inputs : list (option Snake.Direction)) :
  forall (g g' : Game.t) (a b : Z),
    Game.Run inputs g = Ok g' -> Game.scores g = [a; b] ->
    exists a' b' : Z,
      Game.scores g' = [a'; b'] /\
      a <= a' <= a + 3 * Z.of_nat (length inputs) /\
      b <= b' <= b + 3 * Z.of_nat (length inputs).
Proof.
  induction inputs as [|input rest IH]; intros g g' a b Hrun Hsc; cbn [Game.Run] in Hrun.
  - inversion Hrun; subst. exists a, b. cbn [length]. split; [exact Hsc | lia].
  - apply bind_Ok in Hrun. destruct Hrun as (g2 & Hiter & Hrest).
    apply Run_iteration_inv in Hiter. destruct Hiter as (g1 & Hsame & Hup).
    assert (Hsc1 : Game.scores g1 = [a; b])
      by (destruct Hsame as (d & e & ->); exact Hsc).
    destruct (Update_scores_step g1 g2 a b Hup Hsc1) as (ps & pe & Hsc2 & Hps & Hpe).
    destruct (IH g2 g' _ _ Hrest Hsc2) as (a' & b' & Hsc' & Ha & Hb).
    exists a', b'. split; [exact Hsc'|]. cbn [length]. lia.
Qed.

(** X19.  The scores of a game.  From construction on, through any number
    of ticks of [Game::Run] that return, [GetScore()] is defined; the
    player's score is between 0 and three times the number of ticks, the
    enemy's between 1 and one more than that; and the report of [main]
    compares the two: won if the player's is larger, a draw if they are
    equal, lost otherwise. *)
Theorem Run_GetScore (gw gh : Z) (seed : list nat)
  (inputs : list (option Snake.Direction)) (g0 g : Game.t) :
  Game.new gw gh seed = Ok g0 -> Game.Run inputs g0 = Ok g ->
  exists a b : Z,
    Game.GetScore g = Ok [a; b] /\
    0 <= a <= 3 * Z.of_nat (length inputs) /\
    1 <= b <= 1 + 3 * Z.of_nat (length inputs) /\
    (do score <- Game.GetScore g; main_report score)
      = Ok (if a >? b then Won else if a =? b then Draw else Lost).
Proof.
  intros Hnew Hrun. apply new_scores in Hnew.
  destruct (Run_scores_bounds inputs g0 g 0 1 Hrun Hnew) as (a & b & Hsc & Ha & Hb).
  exists a, b. unfold Game.GetScore. rewrite Hsc. cbn.
  split; [reflexivity|]. split; [lia|]. split; [lia | reflexivity].
Qed.

Lemma Run_GetScore_witness :
  exists (g0 g : Game.t) (a b : Z),
    Scenario.game Scenario.seed_turn = Ok g0 /\
    Game.Run Scenario.keys_turn g0 = Ok g /\
    Game.GetScore g = Ok [a; b] /\
    0 <= a <= 3 * Z.of_nat (length Scenario.keys_turn) /\
    1 <= b <= 1 + 3 * Z.of_nat (length Scenario.keys_turn) /\
    (do score <- Game.GetScore g; main_report score)
      = Ok (if a >? b then Won else if a =? b then Draw else Lost).
Proof.
  eexists. eexists.
  match goal with |- exists a b, ?A /\ ?B /\ @?C a b =>
    enough (Hrun : A /\ B /\ exists a b, C a b)
      by (destruct Hrun as (Ha & Hb & a & b & Hc); exists a, b; auto)
  end.
  split; [vm_compute; reflexivity|].
  match goal with |- Game.Run _ ?g0 = _ /\ _ =>
    split; [vm_compute; reflexivity|]; cbv beta;
    apply (Run_GetScore 32 32 Scenario.seed_turn Scenario.keys_turn g0);
    vm_compute; reflexivity
  end.
Defined.

(** ** Format::ElapsedTime *)

Section ElapsedTime.

Import String.

(** X20.  For a time of day or longer, up to the 3600 * 2^31 seconds whose
    hours still fit an [int], [ElapsedTime] prints the hours, minutes and
    seconds of the time: minutes and seconds are below 60 and the three
    add up to the input.  The numbers are printed as they are, without the
    leading zeros of the "HH:MM:SS" its comment announces. *)
Theorem ElapsedTime_parts_sum (seconds : Z) :
  0 <= seconds < 3600 * 2 ^ 31 ->
  let '(hours, minutes, sSeconds) := Format.ElapsedTime_parts seconds in
  hours * 3600 + minutes * 60 + sSeconds = seconds /\
  0 <= hours /\ 0 <= minutes < 60 /\ 0 <= sSeconds < 60 /\
  Format.ElapsedTime seconds =
    String.append (Format.print_int hours)
      (String.append ":"%string
         (String.append (Format.print_int minutes)
            (String.append ":"%string (Format.print_int sSeconds)))) /\
  Format.ElapsedTime 3661 = "1:1:1"%string.
Proof.
  intros Hrange. unfold Format.ElapsedTime, Format.ElapsedTime_parts, Format.int_of_long.
  rewrite Z.quot_div_nonneg, Z.rem_mod_nonneg by lia.
  pose proof (Z.mod_pos_bound seconds 3600 ltac:(lia)) as Hrem.
  assert (Hq : 0 <= seconds / 3600 < 2 ^ 31)
    by (split; [apply Z.div_pos; lia | apply Z.div_lt_upper_bound; lia]).
  rewrite (Z.mod_small (seconds / 3600 + 2 ^ 31)) by lia.
  rewrite (Z.mod_small (seconds mod 3600 + 2 ^ 31)) by lia.
  replace (seconds / 3600 + 2 ^ 31 - 2 ^ 31) with (seconds / 3600) by lia.
  replace (seconds mod 3600 + 2 ^ 31 - 2 ^ 31) with (seconds mod 3600) by lia.
  rewrite Z.quot_div_nonneg, Z.rem_mod_nonneg by lia.
  pose proof (Z.mod_pos_bound (seconds mod 3600) 60 ltac:(lia)) as Hsec.
  pose proof (Z.div_mod seconds 3600 ltac:(lia)) as Hdm.
  pose proof (Z.div_mod (seconds mod 3600) 60 ltac:(lia)) as Hdm'.
  assert (0 <= seconds mod 3600 / 60 < 60)
    by (split; [apply Z.div_pos; lia | apply Z.div_lt_upper_bound; lia]).
  repeat split; lia || (vm_compute; reflexivity).
Qed.

Lemma ElapsedTime_parts_sum_witness :
  let '(hours, minutes, sSeconds) := Format.ElapsedTime_parts 86399 in
  hours * 3600 + minutes * 60 + sSeconds = 86399 /\
  0 <= hours /\ 0 <= minutes < 60 /\ 0 <= sSeconds < 60 /\
  Format.ElapsedTime 86399 =
    String.append (Format.print_int hours)
      (String.append ":"%string
         (String.append (Format.print_int minutes)
            (String.append ":"%string (Format.print_int sSeconds)))) /\
  Format.ElapsedTime 3661 = "1:1:1"%string.
Proof. apply (ElapsedTime_parts_sum 86399). lia. Defined.

End ElapsedTime.
